(** * TechParser: the incremental feature-frequency classifier

    A shallow embedding of [TechParser/classifier.py] (class
    [TextClassifier]) and of the two persistence functions of
    [TechParser/db_functions.py] that drive it ([loadClassifier],
    [saveClassifier]), followed by the properties of the specification
    that were checked against them and by further properties of the
    code (the constructor, batches, commits, scoring, the normalizer,
    the irregular-word table, pagination, saving and loading).

    Conventions of the embedding:
    - a Python [dict] or [collections.Counter] with string keys is a
      [gmap string _]; a loop over [d.items()] is a [map_fold];
    - Python [int] is [Z]; Python [float] is read as an exact rational
      ([Qc], the canonical rationals, so that equal numbers are equal
      terms), which states the formula the code evaluates without its
      rounding.  The two scoring functions are embedded a second time
      in module [Binary64], over the binary64 numbers the interpreter
      computes with and with dicts in insertion order, to settle what
      rounding does to the sum of the weights;
    - text is a list of 8-bit characters.  The character classes of the
      normalizer ([\w], [\d], whitespace, [str.lower]) are those of
      ASCII text, on which Python 2 and Python 3 agree; a property that
      depends on them is stated for ASCII text;
    - a method that mutates [self] takes the object and returns the new
      object; a raised exception is the outcome [Raise e].  No caller in
      the repository catches [ZeroDivisionError] or [KeyError], so the
      state of an object after such an exception is not modelled. *)

From Stdlib Require Import ZArith QArith Qcanon String Ascii List.
From Stdlib Require PrimFloat FloatOps.
From stdpp Require Import gmap strings list fin_maps numbers.

Local Open Scope Z_scope.

(** ** Python runtime: exceptions *)

Inductive exn : Type :=
| ZeroDivisionError
| KeyError.

Inductive outcome (A : Type) : Type :=
| Ok (a : A)
| Raise (e : exn).

Arguments Ok {A} a.
Arguments Raise {A} e.

#[global] Instance outcome_bind : MBind outcome :=
  fun A B (k : A -> outcome B) (x : outcome A) =>
    match x with
    | Ok a => k a
    | Raise e => Raise e
    end.

#[global] Instance outcome_ret : MRet outcome := fun A a => Ok a.

(** [d[k]] on a plain dict: [KeyError] when the key is missing. *)
Definition getitem {V : Type} (d : gmap string V) (k : string) : outcome V :=
  match d !! k with
  | Some v => Ok v
  | None => Raise KeyError
  end.

(** [a / b] on two ints under [from __future__ import division]. *)
Definition truediv (a b : Z) : outcome Qc :=
  if decide (b = 0) then Raise ZeroDivisionError
  else Ok (Qc_of_Z a / Qc_of_Z b)%Qc.

(** ** collections.Counter

    The part of the standard class the classifier relies on: a missing
    key reads as 0, and the in-place operators [+=] and [-=] combine the
    counts key by key and then keep only the strictly positive ones
    (Python 3: [__iadd__]/[__isub__] end in [_keep_positive]; Python 2:
    [c += d] is [c = c + d], and [__add__]/[__sub__] build the result
    from the positive sums only). *)

Module Counter.

(** [c[k]] / [c.get(k, 0)] on a Counter of ints *)
Definition get (c : gmap string Z) (k : string) : Z := default 0 (c !! k).

(** [c[k]] / [c.get(k, 0)] on a Counter of frequencies *)
Definition getq (c : gmap string Qc) (k : string) : Qc := default 0%Qc (c !! k).

Definition _keep_positive (c : gmap string Z) : gmap string Z :=
  filter (fun kv => 0 < kv.2) c.

(** [self[elem] += count] for every item of [other] *)
Definition add_items (self other : gmap string Z) : gmap string Z :=
  map_fold (fun elem count self => <[elem := get self elem + count]> self) self other.

(** [self[elem] -= count] for every item of [other] *)
Definition sub_items (self other : gmap string Z) : gmap string Z :=
  map_fold (fun elem count self => <[elem := get self elem - count]> self) self other.

Definition iadd (self other : gmap string Z) : gmap string Z :=
  _keep_positive (add_items self other).

Definition isub (self other : gmap string Z) : gmap string Z :=
  _keep_positive (sub_items self other).

End Counter.

(** ** class TextClassifier: the model *)

Record TextClassifier : Type := {
  _counts_change : gmap string (gmap string Z);
  counts : gmap string (gmap string Qc);
  sample_counts : gmap string Z;
  _sample_counts_change : gmap string Z
}.

(** [TextClassifier.__init__(categories)] *)
Definition init (categories : list string) : TextClassifier :=
  foldl (fun self i =>
           {| _counts_change := <[i := ∅]> (_counts_change self);
              counts := <[i := ∅]> (counts self);
              sample_counts := <[i := 0]> (sample_counts self);
              _sample_counts_change := <[i := 0]> (_sample_counts_change self) |})
        {| _counts_change := ∅; counts := ∅;
           sample_counts := ∅; _sample_counts_change := ∅ |}
        categories.

(** [add_sample(features, category)]:
    [self._counts_change[category] += features;
     self._sample_counts_change[category] += 1] *)
Definition add_sample (self : TextClassifier) (features : gmap string Z)
    (category : string) : outcome TextClassifier :=
  changes ← getitem (_counts_change self) category;
  n ← getitem (_sample_counts_change self) category;
  Ok {| _counts_change := <[category := Counter.iadd changes features]> (_counts_change self);
        counts := counts self;
        sample_counts := sample_counts self;
        _sample_counts_change := <[category := n + 1]> (_sample_counts_change self) |}.

(** [remove_sample(features, category)]:
    [self._counts_change[category] -= features;
     self._sample_counts_change[category] -= 1] *)
Definition remove_sample (self : TextClassifier) (features : gmap string Z)
    (category : string) : outcome TextClassifier :=
  changes ← getitem (_counts_change self) category;
  n ← getitem (_sample_counts_change self) category;
  Ok {| _counts_change := <[category := Counter.isub changes features]> (_counts_change self);
        counts := counts self;
        sample_counts := sample_counts self;
        _sample_counts_change := <[category := n - 1]> (_sample_counts_change self) |}.

(** [add_samples(samples)]: [add_sample] on each sample in turn *)
Fixpoint add_samples (self : TextClassifier) (samples : list (gmap string Z * string))
    : outcome TextClassifier :=
  match samples with
  | [] => Ok self
  | sample :: rest =>
      self' ← add_sample self sample.1 sample.2;
      add_samples self' rest
  end.

(** [remove_samples(samples)] *)
Fixpoint remove_samples (self : TextClassifier) (samples : list (gmap string Z * string))
    : outcome TextClassifier :=
  match samples with
  | [] => Ok self
  | sample :: rest =>
      self' ← remove_sample self sample.1 sample.2;
      remove_samples self' rest
  end.

(** The two inner loops of [apply_changes]:
    [for k in counter.keys(): counter[k] *= r] and
    [for k, v in changes.items(): counter[k] += v / new_sample_count]. *)
Definition rescale (r : Qc) (counter : gmap string Qc) : gmap string Qc :=
  (fun x => x * r)%Qc <$> counter.

Definition add_changes (new_sample_count : Z) (changes : gmap string Z)
    (counter : gmap string Qc) : gmap string Qc :=
  map_fold (fun k v counter =>
              <[k := (Counter.getq counter k + Qc_of_Z v / Qc_of_Z new_sample_count)%Qc]> counter)
           counter changes.

(** One turn of the loop of [apply_changes], for the item
    [(category, changes)] of [self._counts_change]. *)
Definition apply_changes_body (category : string) (changes : gmap string Z)
    (self : TextClassifier) : outcome TextClassifier :=
  old_count ← getitem (sample_counts self) category;
  delta ← getitem (_sample_counts_change self) category;
  let new_sample_count := old_count + delta in
  r ← truediv old_count new_sample_count;
  counter ← getitem (counts self) category;
  let counter := if decide (r ≠ 0%Qc) then rescale r counter else counter in
  let counter := add_changes new_sample_count changes counter in
  Ok {| _counts_change := <[category := ∅]> (_counts_change self);
        counts := <[category := counter]> (counts self);
        sample_counts := <[category := new_sample_count]> (sample_counts self);
        _sample_counts_change := <[category := 0]> (_sample_counts_change self) |}.

(** [apply_changes()]: the loop over [self._counts_change.items()] *)
Definition apply_changes (self : TextClassifier) : outcome TextClassifier :=
  map_fold (fun category changes acc =>
              self' ← acc; apply_changes_body category changes self')
           (Ok self) (_counts_change self).

(** [classify_feature(feature)] *)
Definition classify_feature (self : TextClassifier) (feature : string)
    : outcome (gmap string Qc) :=
  let '(sum_, feature_counts) :=
    map_fold (fun category counter (acc : Qc * gmap string Qc) =>
                let count := Counter.getq counter feature in
                ((acc.1 + count)%Qc, <[category := count]> acc.2))
             (0%Qc, ∅) (counts self) in
  let probabilities : gmap string Qc := (fun _ => 1%Qc) <$> counts self in
  if decide (sum_ = 0%Qc) then
    value ← truediv 1 (Z.of_nat (size feature_counts));
    Ok ((fun _ => value) <$> probabilities)
  else
    Ok (map_fold (fun k i probabilities => <[k := (i / sum_)%Qc]> probabilities)
                 probabilities feature_counts).

(** The body of [for i in range(count): for k, v in probabilities.items():
    result[k] += v], one turn of the outer loop. *)
Definition add_votes (probabilities result : gmap string Qc) : gmap string Qc :=
  map_fold (fun k v result => <[k := (Counter.getq result k + v)%Qc]> result)
           result probabilities.

(** The first loop of [classify_features]: the running [result] and
    [length]. *)
Definition tally (self : TextClassifier) (features : gmap string Z)
    : outcome (gmap string Qc * Z) :=
  map_fold (fun feature count acc =>
              st ← acc;
              probabilities ← classify_feature self feature;
              Ok (Nat.iter (Z.to_nat count) (add_votes probabilities) st.1,
                  st.2 + count))
           (Ok (∅, 0)) features.

(** [classify_features(features)] *)
Definition classify_features (self : TextClassifier) (features : gmap string Z)
    : outcome (gmap string Qc) :=
  st ← tally self features;
  let result : gmap string Qc := st.1 in
  let length : Z := st.2 in
  if decide (result = ∅) then Ok result
  else if decide (length = 0) then Raise ZeroDivisionError
  else Ok ((fun x => x / Qc_of_Z length)%Qc <$> result).

(** ** The scoring functions in binary64

    [classify_feature] and [classify_features] once more, with the
    arithmetic of the interpreter: a Python [float] is a binary64
    number, [+] and [/] round to nearest, and [==] is the IEEE
    comparison.  A dict is the list of its items in insertion order,
    the order in which [items()] yields them, since the order of the
    additions matters here.  The int [0] that starts a sum or stands
    for a missing key is the float [0.0], to which it is converted at
    the first mixed operation. *)

Module Binary64.

Import PrimFloat.

Definition dict (V : Type) : Type := list (string * V).

(** [d.get(k)] *)
Fixpoint getitem {V : Type} (d : dict V) (k : string) : option V :=
  match d with
  | [] => None
  | item :: d' => if decide (item.1 = k) then Some item.2 else getitem d' k
  end.

(** [d[k] = v]: an existing key keeps its place, a new one goes last. *)
Fixpoint setitem {V : Type} (d : dict V) (k : string) (v : V) : dict V :=
  match d with
  | [] => [(k, v)]
  | item :: d' =>
      if decide (item.1 = k) then (k, v) :: d' else item :: setitem d' k v
  end.

(** The conversion of an int to a float, exact below 2^53. *)
Fixpoint of_pos (p : positive) : float :=
  match p with
  | xH => 1%float
  | xO p' => (2 * of_pos p')%float
  | xI p' => (2 * of_pos p' + 1)%float
  end.

Definition of_int (n : Z) : float :=
  match n with
  | Z0 => 0%float
  | Zpos p => of_pos p
  | Zneg p => (- of_pos p)%float
  end.

(** [c.get(k, 0)] / [c[k]] on a Counter of frequencies *)
Definition get (c : dict float) (k : string) : float := default 0%float (getitem c k).

(** [classify_feature(feature)], on [self.counts] *)
Definition classify_feature (counts : dict (dict float)) (feature : string)
    : outcome (dict float) :=
  let '(sum_, feature_counts) :=
    foldl (fun (acc : float * dict float) item =>
             let count := get item.2 feature in
             ((acc.1 + count)%float, setitem acc.2 item.1 count))
          (0%float, []) counts in
  let probabilities : dict float := (fun item => (item.1, 1%float)) <$> counts in
  if (sum_ =? 0)%float then
    if decide (length feature_counts = 0%nat) then Raise ZeroDivisionError
    else
      let value := (1 / of_int (Z.of_nat (length feature_counts)))%float in
      Ok ((fun item => (item.1, value)) <$> probabilities)
  else
    Ok (foldl (fun probabilities item =>
                 setitem probabilities item.1 (item.2 / sum_)%float)
              probabilities feature_counts).

(** [for k, v in probabilities.items(): result[k] += v] *)
Definition add_votes (probabilities result : dict float) : dict float :=
  foldl (fun result item => setitem result item.1 (get result item.1 + item.2)%float)
        result probabilities.

(** The first loop of [classify_features] *)
Definition tally (counts : dict (dict float)) (features : dict Z)
    : outcome (dict float * Z) :=
  foldl (fun acc item =>
           st ← acc;
           probabilities ← classify_feature counts item.1;
           Ok (Nat.iter (Z.to_nat item.2) (add_votes probabilities) st.1,
               st.2 + item.2))
        (Ok ([], 0)) features.

(** [classify_features(features)], on [self.counts] *)
Definition classify_features (counts : dict (dict float)) (features : dict Z)
    : outcome (dict float) :=
  st ← tally counts features;
  let result : dict float := st.1 in
  let length : Z := st.2 in
  match result with
  | [] => Ok result
  | _ :: _ =>
      if decide (length = 0) then Raise ZeroDivisionError
      else Ok ((fun item => (item.1, (item.2 / of_int length)%float)) <$> result)
  end.

(** The rational number a finite float stands for. *)
Definition exact (x : float) : Q :=
  match FloatOps.Prim2SF x with
  | SpecFloat.S754_finite s m e =>
      let v := (inject_Z (Z.pos m) * Qpower 2 e)%Q in
      if s then Qopp v else v
  | _ => 0%Q
  end.

(** The tables of a model trained on one sample [{f: 1}] for
    'interesting' and one sample [{f: 9}] for 'boring': 1/1 and 9/1. *)
Definition one_and_nine : dict (dict float) :=
  [ ("interesting"%string, [("f"%string, 1%float)]);
    ("boring"%string, [("f"%string, 9%float)]) ].

(** 0.09999999999999999 and 0.9000000000000001 *)
Definition weight_interesting : float := 0x1.9999999999999p-4%float.
Definition weight_boring : float := 0x1.ccccccccccccep-1%float.

End Binary64.

(** ** The regular expressions of the normalizer

    A backtracking matcher for the fragment of Python's [re] that the
    patterns of [TextClassifier] use: literals, [\w], [\d], [.], [\b],
    concatenation, ordered alternation, the named group [g1], and
    greedy or lazy repetition of a single-character item.  It follows
    [re]: alternatives are tried left to right, a greedy repetition
    takes as many characters as it can and gives them back one at a
    time, a lazy one does the opposite, and the first match found at
    the leftmost position wins.  Text is a list of ASCII characters, so
    [\w] is [[a-zA-Z0-9_]]. *)

Module Re.

Inductive item : Type :=
| Chr (c : ascii)   (* a literal character *)
| WordChar          (* \w *)
| Digit             (* \d *)
| Dot.              (* .  : anything but a newline *)

Inductive regex : Type :=
| Eps
| One (i : item)
| Boundary                                              (* \b *)
| Cat (r1 r2 : regex)
| Alt (r1 r2 : regex)
| Rep (lo : nat) (hi : option nat) (greedy : bool) (i : item)
| G1 (r : regex).                                       (* (?P<g1>...) *)

Definition between (lo hi : nat) (c : ascii) : bool :=
  let n := nat_of_ascii c in (lo <=? n)%nat && (n <=? hi)%nat.

Definition is_digit (c : ascii) : bool := between 48 57 c.

Definition is_word (c : ascii) : bool :=
  between 97 122 c || between 65 90 c || is_digit c || Ascii.eqb c "_"%char.

Definition item_matches (i : item) (c : ascii) : bool :=
  match i with
  | Chr c' => Ascii.eqb c c'
  | WordChar => is_word c
  | Digit => is_digit c
  | Dot => negb (Ascii.eqb c "010"%char)
  end.

(** A position in the subject: the character before it (if any) is
    kept apart, for [\b]. *)
Definition at_boundary (prev : option ascii) (s : list ascii) : bool :=
  let before := match prev with Some c => is_word c | None => false end in
  let after := match s with c :: _ => is_word c | [] => false end in
  xorb before after.

(** What a successful match yields: the text of group [g1], the rest
    of the subject and the last character consumed before it. *)
Definition found : Type := list ascii * list ascii * option ascii.

Definition cont : Type := option ascii -> list ascii -> list ascii -> option found.

(** [i{lo,hi}] (greedy) or [i{lo,hi}?] (lazy), by recursion on the
    subject. *)
Fixpoint rep (i : item) (lo : nat) (hi : option nat) (greedy : bool)
    (prev : option ascii) (s : list ascii) (g : list ascii) (k : cont) : option found :=
  match s with
  | [] => match lo with O => k prev s g | S _ => None end
  | c :: s' =>
      let more (_ : unit) :=
        if bool_decide (hi ≠ Some O) && item_matches i c
        then rep i (Nat.pred lo) (Nat.pred <$> hi) greedy (Some c) s' g k
        else None in
      match lo with
      | S _ => more ()
      | O =>
          if greedy
          then match more () with Some m => Some m | None => k prev s g end
          else match k prev s g with Some m => Some m | None => more () end
      end
  end.

Fixpoint rmatch (r : regex) (prev : option ascii) (s g : list ascii) (k : cont)
    : option found :=
  match r with
  | Eps => k prev s g
  | One i =>
      match s with
      | c :: s' => if item_matches i c then k (Some c) s' g else None
      | [] => None
      end
  | Boundary => if at_boundary prev s then k prev s g else None
  | Cat r1 r2 => rmatch r1 prev s g (fun prev' s' g' => rmatch r2 prev' s' g' k)
  | Alt r1 r2 =>
      match rmatch r1 prev s g k with
      | Some m => Some m
      | None => rmatch r2 prev s g k
      end
  | Rep lo hi greedy i => rep i lo hi greedy prev s g k
  | G1 r1 =>
      rmatch r1 prev s g
             (fun prev' s' _ => k prev' s' (take (length s - length s') s))
  end.

(** [pattern.match(subject, pos)] *)
Definition match_at (r : regex) (prev : option ascii) (s : list ascii) : option found :=
  rmatch r prev s [] (fun prev' s' g => Some (g, s', prev')).

(** [pattern.sub(repl, subject)]: the non-overlapping matches, left to
    right, are replaced by [repl group0 g1]; [skip] counts the
    characters of the subject still covered by the last match. *)
Fixpoint sub_from (r : regex) (repl : list ascii -> list ascii -> list ascii)
    (skip : nat) (prev : option ascii) (s : list ascii) : list ascii :=
  match s with
  | [] =>
      match skip, match_at r prev [] with
      | O, Some (g, _, _) => repl [] g
      | _, _ => []
      end
  | c :: s' =>
      match skip with
      | S n => sub_from r repl n (Some c) s'
      | O =>
          match match_at r prev s with
          | Some (g, rest, _) =>
              match (length s - length rest)%nat with
              | O => repl [] g ++ c :: sub_from r repl O (Some c) s'
              | S n => repl (take (S n) s) g ++ sub_from r repl n (Some c) s'
              end
          | None => c :: sub_from r repl O (Some c) s'
          end
      end
  end.

Definition sub (r : regex) (repl : list ascii -> list ascii -> list ascii)
    (s : list ascii) : list ascii :=
  sub_from r repl O None s.

(** [pattern.findall(subject)] for a pattern without groups: the
    texts of the non-overlapping matches. *)
Fixpoint findall_from (r : regex) (skip : nat) (prev : option ascii) (s : list ascii)
    : list (list ascii) :=
  match s with
  | [] =>
      match skip, match_at r prev [] with
      | O, Some _ => [[]]
      | _, _ => []
      end
  | c :: s' =>
      match skip with
      | S n => findall_from r n (Some c) s'
      | O =>
          match match_at r prev s with
          | Some (_, rest, _) =>
              match (length s - length rest)%nat with
              | O => [] :: findall_from r O (Some c) s'
              | S n => take (S n) s :: findall_from r n (Some c) s'
              end
          | None => findall_from r O (Some c) s'
          end
      end
  end.

Definition findall (r : regex) (s : list ascii) : list (list ascii) :=
  findall_from r O None s.

(** Pattern text without metacharacters: the characters in sequence. *)
Definition lit (w : string) : regex :=
  foldr (fun c r => Cat (One (Chr c)) r) Eps (list_ascii_of_string w).

(** [a|b|...]; the empty alternation is the empty pattern. *)
Fixpoint alts (rs : list regex) : regex :=
  match rs with
  | [] => Eps
  | [r] => r
  | r :: rs' => Alt r (alts rs')
  end.

Definition plus (i : item) : regex := Rep 1 None true i.

End Re.

(** ** class TextClassifier: the text normalizer *)

(** [str.lower()] on ASCII text *)
Definition lower_char (c : ascii) : ascii :=
  if Re.between 65 90 c then ascii_of_nat (nat_of_ascii c + 32) else c.

Definition lower (text : list ascii) : list ascii := lower_char <$> text.

(** [str.split()]: the maximal runs of non-whitespace characters.  The
    ASCII whitespace characters are the tab, the line and page breaks,
    the four separators FS, GS, RS and US, and the space. *)
Definition is_space (c : ascii) : bool :=
  Re.between 9 13 c || Re.between 28 32 c.

Fixpoint split_from (word : list ascii) (s : list ascii) : list (list ascii) :=
  match s with
  | [] => match word with [] => [] | _ => [rev word] end
  | c :: s' =>
      if is_space c
      then match word with [] => split_from [] s' | _ => rev word :: split_from [] s' end
      else split_from (c :: word) s'
  end.

Definition split (s : string) : list string :=
  string_of_list_ascii <$> split_from [] (list_ascii_of_string s).

(** An article as the corpus supplies it: a dict of which the classifier
    reads the keys ['title'] and ['summary']. *)
Record Article : Type := {
  title : string;
  summary : string
}.

Section Normalizer.

(** [nltk.corpus.stopwords.words('english')].  The words are spliced
    into the pattern as they are; they are taken to be free of
    metacharacters, as the words of that list are. *)
Variable ENGLISH_STOPWORDS : list string.

(** The class attribute [TextClassifier.replacements], as
    [load_irregular_words] leaves it. *)
Variable replacements : gmap string string.

(** [TextClassifier.stemmer.stem], NLTK's Porter stemmer. *)
Variable stem : string -> string.

(** The local function [fixup] of [unescape] on the text of one match:
    it decodes a character reference with [chr], [int] and
    [htmlentitydefs.name2codepoint] (from [TechParser.py2x]) and
    returns the text unchanged when that fails. *)
Variable fixup : string -> string.

(** [r'\bain\'t\b'] *)
Definition re_aint : Re.regex :=
  Re.Cat Re.Boundary (Re.Cat (Re.lit "ain't") Re.Boundary).

(** [r'\b(?P<g1>\w+)\'(s|m|d|ve|re)\b'] *)
Definition re_contraction : Re.regex :=
  Re.Cat Re.Boundary
    (Re.Cat (Re.G1 (Re.plus Re.WordChar))
       (Re.Cat (Re.One (Re.Chr "'"))
          (Re.Cat (Re.alts [Re.lit "s"; Re.lit "m"; Re.lit "d"; Re.lit "ve"; Re.lit "re"])
             Re.Boundary))).

(** [r'\b(?P<g1>\w+)n\'t\b'] *)
Definition re_negation : Re.regex :=
  Re.Cat Re.Boundary
    (Re.Cat (Re.G1 (Re.plus Re.WordChar)) (Re.Cat (Re.lit "n't") Re.Boundary)).

(** [r'\b(' + r'|'.join(ENGLISH_STOPWORDS) + r')\b'] *)
Definition re_stopwords : Re.regex :=
  Re.Cat Re.Boundary (Re.Cat (Re.alts (Re.lit <$> ENGLISH_STOPWORDS)) Re.Boundary).

(** [r'<.*?>'] *)
Definition re_tag : Re.regex :=
  Re.Cat (Re.One (Re.Chr "<"))
    (Re.Cat (Re.Rep 0 None false Re.Dot) (Re.One (Re.Chr ">"))).

(** [r'\d+'] *)
Definition re_digits : Re.regex := Re.plus Re.Digit.

(** The replacement templates [''], ['\g<g1>'] and [' ']. *)
Definition repl_empty (group0 g1 : list ascii) : list ascii := [].
Definition repl_g1 (group0 g1 : list ascii) : list ascii := g1.
Definition repl_space (group0 g1 : list ascii) : list ascii := [" "%char].

Definition regular_expressions
    : list (Re.regex * (list ascii -> list ascii -> list ascii)) :=
  [ (re_aint, repl_empty);
    (re_contraction, repl_g1);
    (re_negation, repl_g1);
    (re_stopwords, repl_empty);
    (re_tag, repl_space);
    (re_digits, repl_empty) ].

(** [r'&#?\w+;'] *)
Definition unicode_chr_regex : Re.regex :=
  Re.Cat (Re.One (Re.Chr "&"))
    (Re.Cat (Re.Rep 0 (Some 1%nat) true (Re.Chr "#"))
       (Re.Cat (Re.plus Re.WordChar) (Re.One (Re.Chr ";")))).

(** [r'\w+\'\w{1,2}|\w+'] *)
Definition tokenize_regex : Re.regex :=
  Re.Alt
    (Re.Cat (Re.plus Re.WordChar)
       (Re.Cat (Re.One (Re.Chr "'")) (Re.Rep 1 (Some 2%nat) true Re.WordChar)))
    (Re.plus Re.WordChar).

(** [apply_regexes(text)]: every pattern in turn, each on the result of
    the one before. *)
Definition apply_regexes (text : list ascii) : list ascii :=
  foldl (fun text p => Re.sub p.1 p.2 text) text regular_expressions.

(** [unescape(text)]; the conversion [unicode_(text)] changes nothing
    on text that is already a string. *)
Definition unescape (text : list ascii) : list ascii :=
  Re.sub unicode_chr_regex
         (fun group0 _ => list_ascii_of_string (fixup (string_of_list_ascii group0)))
         text.

(** [tokenize(text)] *)
Definition tokenize (text : list ascii) : list string :=
  string_of_list_ascii <$> Re.findall tokenize_regex text.

(** [replace_irregular_words(words)]: the replacement of a word (the
    word itself when it has none), split at whitespace, every piece
    stemmed. *)
Definition replace_irregular_words (words : list string) : list string :=
  flat_map (fun i => stem <$> split (default i (replacements !! i))) words.

(** [prepare_words(text)] *)
Definition prepare_words (text : string) : list string :=
  let text := apply_regexes (unescape (lower (list_ascii_of_string text))) in
  let text := tokenize text in
  replace_irregular_words text.

(** [Counter(words)] *)
Definition count_words (words : list string) : gmap string Z :=
  foldl (fun c w => <[w := Counter.get c w + 1]> c) ∅ words.

(** [prepare_counter(text)] and [prepare_article(article)] *)
Definition prepare_counter (text : string) : gmap string Z :=
  count_words (prepare_words text).

Definition prepare_article (article : Article) : gmap string Z :=
  prepare_counter (title article ++ " " ++ summary article)%string.

(** [add_article(article, category)] and [remove_article(article, category)] *)
Definition add_article (self : TextClassifier) (article : Article) (category : string)
    : outcome TextClassifier :=
  add_sample self (prepare_counter (title article ++ " " ++ summary article)%string)
             category.

Definition remove_article (self : TextClassifier) (article : Article) (category : string)
    : outcome TextClassifier :=
  remove_sample self (prepare_counter (title article ++ " " ++ summary article)%string)
                category.

(** [for i in articles: classifier.add_article(i, category)] *)
Fixpoint add_each (self : TextClassifier) (articles : list Article) (category : string)
    : outcome TextClassifier :=
  match articles with
  | [] => Ok self
  | i :: rest => self' ← add_article self i category; add_each self' rest category
  end.

End Normalizer.

(** ** db_functions: loading and saving the model *)

(** The part of the main database these functions touch: the settings
    table behind [get_var]/[set_var], and the two article tables behind
    [get_interesting_articles] and [get_blacklist]. *)
Record Database : Type := {
  variables : gmap string string;
  history : list Article;
  blacklist : list Article
}.

(** [get_var(name, default)]: the stored value, or [default] when there
    is no row for [name]. *)
Definition get_var (db : Database) (name default_ : string) : string :=
  default default_ (variables db !! name).

(** [set_var(name, value)]: insert the row, or update it when it exists. *)
Definition set_var (db : Database) (name value : string) : Database :=
  {| variables := <[name := value]> (variables db);
     history := history db;
     blacklist := blacklist db |}.

Definition get_interesting_articles (db : Database) : list Article := history db.
Definition get_blacklist (db : Database) : list Article := blacklist db.

Section Persistence.

Variable ENGLISH_STOPWORDS : list string.
Variable replacements : gmap string string.
Variable stem : string -> string.
Variable fixup : string -> string.

(** The [json] codec at the two types it is used at.
    [loads_counts text] stands for
    [{k: Counter(v) for k, v in json.loads(text).items()}] and
    [loads_sample_counts text] for [json.loads(text)]; [None] is a
    [ValueError].  Text that parses to a value of another shape raises
    other exceptions in Python and is outside this model. *)
Variable dumps_counts : gmap string (gmap string Qc) -> string.
Variable loads_counts : string -> option (gmap string (gmap string Qc)).
Variable dumps_sample_counts : gmap string Z -> string.
Variable loads_sample_counts : string -> option (gmap string Z).

Definition saveClassifier (db : Database) (classifier : TextClassifier) : Database :=
  let db := set_var db "classifier_counts" (dumps_counts (counts classifier)) in
  set_var db "classifier_sample_counts" (dumps_sample_counts (sample_counts classifier)).

(** The [except ValueError] branch of [loadClassifier]; [classifier]
    is the object as the interrupted [try] block left it. *)
Definition retrain (db : Database) (classifier : TextClassifier)
    (interesting_articles blacklist : option (list Article))
    : outcome (TextClassifier * Database) :=
  let interesting_articles := default (get_interesting_articles db) interesting_articles in
  let blacklist := default (get_blacklist db) blacklist in
  classifier ← add_each ENGLISH_STOPWORDS replacements stem fixup
                        classifier interesting_articles "interesting";
  classifier ← add_each ENGLISH_STOPWORDS replacements stem fixup
                        classifier blacklist "boring";
  classifier ← apply_changes classifier;
  Ok (classifier, saveClassifier db classifier).

Definition loadClassifier (db : Database)
    (interesting_articles blacklist : option (list Article))
    : outcome (TextClassifier * Database) :=
  let classifier_counts := get_var db "classifier_counts" EmptyString in
  let classifier_sample_counts := get_var db "classifier_sample_counts" EmptyString in
  let classifier := init ["interesting"; "boring"]%string in
  match loads_counts classifier_counts with
  | None => retrain db classifier interesting_articles blacklist
  | Some c =>
      let classifier :=
        {| _counts_change := _counts_change classifier;
           counts := c;
           sample_counts := sample_counts classifier;
           _sample_counts_change := _sample_counts_change classifier |} in
      match loads_sample_counts classifier_sample_counts with
      | None => retrain db classifier interesting_articles blacklist
      | Some n =>
          Ok ({| _counts_change := _counts_change classifier;
                 counts := counts classifier;
                 sample_counts := n;
                 _sample_counts_change := _sample_counts_change classifier |}, db)
      end
  end.

End Persistence.

(** ** Notions used to state the properties *)

(** The sum of [g k v] over the items of a dict. *)
Definition sum_over {A : Type} (g : string -> A -> Qc) (m : gmap string A) : Qc :=
  map_fold (fun k v acc => (acc + g k v)%Qc) 0%Qc m.

(** The total frequency of [feature] over the tables of all
    categories. *)
Definition feature_total (self : TextClassifier) (feature : string) : Qc :=
  sum_over (fun _ counter => Counter.getq counter feature) (counts self).

(** The weight [classify_feature] gives to [category] for [feature]. *)
Definition vote (self : TextClassifier) (feature category : string) : Qc :=
  match classify_feature self feature with
  | Ok probabilities => Counter.getq probabilities category
  | Raise _ => 0%Qc
  end.

(** The number of feature occurrences of a FeatureCounts. *)
Definition total_occurrences (features : gmap string Z) : Z :=
  map_fold (fun _ count acc => acc + count) 0 features.

(** The occurrence-weighted average of the votes: every feature's vote
    counted as often as the feature occurs, over the number of feature
    occurrences. *)
Definition vote_average (self : TextClassifier) (features : gmap string Z)
    (category : string) : Qc :=
  (sum_over (fun feature count => Qc_of_Z count * vote self feature category) features
   / Qc_of_Z (total_occurrences features))%Qc.

(** What one turn of the loop of [apply_changes] computes for
    [category] from the state [self]: the new table and the new sample
    count. *)
Definition committed (self : TextClassifier) (category : string)
    (changes : gmap string Z) : outcome (gmap string Qc * Z) :=
  old_count ← getitem (sample_counts self) category;
  delta ← getitem (_sample_counts_change self) category;
  r ← truediv old_count (old_count + delta);
  counter ← getitem (counts self) category;
  Ok (add_changes (old_count + delta) changes
                  (if decide (r ≠ 0%Qc) then rescale r counter else counter),
      old_count + delta).

(** [FrequencyTable[category].get(feature, 0)], the committed frequency
    of a feature. *)
Definition frequency (self : TextClassifier) (category feature : string) : Qc :=
  Counter.getq (default ∅ (counts self !! category)) feature.

(** The model of the end-to-end scenario: one sample
    [{rocket: 2, launch: 1}] committed to 'interesting' and one sample
    [{launch: 1, delay: 1}] committed to 'boring'. *)
Definition two_samples : outcome TextClassifier :=
  s ← add_sample (init ["interesting"; "boring"]%string)
                 (<["rocket"%string := 2]> (<["launch"%string := 1]> ∅)) "interesting";
  s ← add_sample s (<["launch"%string := 1]> (<["delay"%string := 1]> ∅)) "boring";
  apply_changes s.

(** A model in which 'launch' has frequency 1 in both categories and
    'rocket' frequency 2 in 'interesting' only. *)
Definition launch_model : TextClassifier :=
  {| _counts_change := <["interesting"%string := ∅]> (<["boring"%string := ∅]> ∅);
     counts :=
       <["interesting"%string :=
           <["rocket"%string := Qc_of_Z 2]> (<["launch"%string := Qc_of_Z 1]> ∅)]>
         (<["boring"%string := <["launch"%string := Qc_of_Z 1]> ∅]> ∅);
     sample_counts := <["interesting"%string := 1]> (<["boring"%string := 1]> ∅);
     _sample_counts_change := <["interesting"%string := 0]> (<["boring"%string := 0]> ∅) |}.

(** A database whose counts blob parses to a table with the entry
    [x: 1] for 'interesting' and whose sample-counts row is missing,
    with a codec that reads it so. *)
Definition loaded_counts : gmap string (gmap string Qc) :=
  <["interesting"%string := {["x"%string := Qc_of_Z 1]}]> (<["boring"%string := ∅]> ∅).

Definition half_saved : Database :=
  {| variables := {["classifier_counts"%string := "counts blob"%string]};
     history := [];
     blacklist := [] |}.

Definition read_counts (text : string) : option (gmap string (gmap string Qc)) :=
  if decide (text = EmptyString) then None else Some loaded_counts.

Definition read_sample_counts (text : string) : option (gmap string Z) :=
  if decide (text = EmptyString) then None else Some ∅.

Definition liked : list Article :=
  [ {| title := "Rocket launch"; summary := "It's a test!! 123" |} ].

Definition disliked : list Article :=
  [ {| title := "Launch delay"; summary := EmptyString |} ].

(** The occurrences of [feature] in a batch of samples. *)
Definition occurrences (feature : string) (batch : list (gmap string Z)) : Z :=
  foldr (fun features acc => Counter.get features feature + acc) 0 batch.

(** [add_sample(features, category)] for every sample of a batch. *)
Definition stage_batch (self : TextClassifier) (batch : list (gmap string Z))
    (category : string) : outcome TextClassifier :=
  add_samples self ((fun features => (features, category)) <$> batch).

(** A category that [apply_changes] can commit: its three entries
    exist and its new total is not zero. *)
Definition committable (self : TextClassifier) (category : string) : Prop :=
  exists old delta counter,
    sample_counts self !! category = Some old
    /\ _sample_counts_change self !! category = Some delta
    /\ counts self !! category = Some counter
    /\ old + delta ≠ 0.

(** A category with no committed samples and nothing staged, as
    [__init__] leaves every category. *)
Definition untrained (self : TextClassifier) (category : string) : Prop :=
  _counts_change self !! category = Some ∅
  /\ _sample_counts_change self !! category = Some 0
  /\ sample_counts self !! category = Some 0
  /\ counts self !! category = Some ∅.

(** A FeatureCounts holds non-negative counts. *)
Definition nonnegative (features : gmap string Z) : Prop :=
  map_Forall (fun _ v => 0 <= v) features.

(** Every frequency of every table of the model is non-negative. *)
Definition nonnegative_tables (self : TextClassifier) : Prop :=
  map_Forall (fun _ counter => map_Forall (fun _ v => (0 <= v)%Qc) counter)
             (counts self).

(** The state the loop of [apply_changes] has reached after the items
    [m]: committed at the categories of [m], untouched elsewhere; or the
    exception of a category of [m]. *)
Definition loop_invariant (s0 : TextClassifier) (r : outcome TextClassifier)
    (m : gmap string (gmap string Z)) : Prop :=
  match r with
  | Ok s =>
      forall c,
        match m !! c with
        | Some changes =>
            exists table n,
              committed s0 c changes = Ok (table, n)
              /\ counts s !! c = Some table
              /\ sample_counts s !! c = Some n
              /\ _counts_change s !! c = Some ∅
              /\ _sample_counts_change s !! c = Some 0
        | None =>
            counts s !! c = counts s0 !! c
            /\ sample_counts s !! c = sample_counts s0 !! c
            /\ _sample_counts_change s !! c = _sample_counts_change s0 !! c
            /\ _counts_change s !! c = _counts_change s0 !! c
        end
  | Raise e => exists c changes, m !! c = Some changes /\ committed s0 c changes = Raise e
  end.

(** The uniform distribution and the shares of the total frequency. *)
Definition uniform (self : TextClassifier) : gmap string Qc :=
  (fun _ => (1 / Qc_of_Z (Z.of_nat (size (counts self))))%Qc) <$> counts self.

Definition shares (self : TextClassifier) (feature : string) : gmap string Qc :=
  (fun counter => (Counter.getq counter feature / feature_total self feature)%Qc)
    <$> counts self.

(** The state of the first loop of [classify_features] after the items
    [m] of the input. *)
Definition tally_invariant (self : TextClassifier)
    (r : outcome (gmap string Qc * Z)) (m : gmap string Z) : Prop :=
  exists result length,
    r = Ok (result, length)
    /\ Qc_of_Z length = sum_over (fun _ count => Qc_of_Z count) m
    /\ (forall c, Counter.getq result c
                  = sum_over (fun feature count =>
                                Qc_of_Z (Z.of_nat (Z.to_nat count)) * vote self feature c)%Qc m)
    /\ dom result ⊆ dom (counts self)
    /\ ((exists feature count, m !! feature = Some count /\ 0 < count) ->
        dom result = dom (counts self)).

(** ** Further notions: well-formed models and batches *)

(** The four dicts of the model have the same keys, as [__init__]
    builds them. *)
Definition well_formed (self : TextClassifier) : Prop :=
  dom (counts self) = dom (_counts_change self)
  /\ dom (sample_counts self) = dom (_counts_change self)
  /\ dom (_sample_counts_change self) = dom (_counts_change self).

(** The number of samples of a batch that go to [category]. *)
Definition samples_in (category : string) (samples : list (gmap string Z * string)) : Z :=
  Z.of_nat (length (filter (fun sample => sample.2 = category) samples)).

(** No committed sample count is negative, and no pending removal
    exceeds what is committed. *)
Definition sane_counts (self : TextClassifier) : Prop :=
  map_Forall (fun c old =>
                forall delta, _sample_counts_change self !! c = Some delta ->
                              0 <= old /\ 0 <= old + delta)
             (sample_counts self).

(** Every staged delta of every category is non-negative. *)
Definition nonnegative_changes (self : TextClassifier) : Prop :=
  map_Forall (fun _ changes => nonnegative changes) (_counts_change self).

(** A model with one sample staged for each of its two categories and
    nothing committed, and the model its commit gives. *)
Definition staged_model : TextClassifier :=
  {| _counts_change :=
       <["interesting"%string :=
           <["rocket"%string := 2]> (<["launch"%string := 1]> ∅)]>
         (<["boring"%string :=
              <["launch"%string := 1]> (<["delay"%string := 1]> ∅)]> ∅);
     counts := <["interesting"%string := ∅]> (<["boring"%string := ∅]> ∅);
     sample_counts := <["interesting"%string := 0]> (<["boring"%string := 0]> ∅);
     _sample_counts_change := <["interesting"%string := 1]> (<["boring"%string := 1]> ∅) |}.

Definition after_commit : TextClassifier :=
  match apply_changes staged_model with
  | Ok self' => self'
  | Raise _ => staged_model
  end.

(** The staged Counter of [category] after [+=] with the features of
    each of its samples in [samples], in the order of the list. *)
Definition staged_in (category : string) (samples : list (gmap string Z * string))
    (changes : gmap string Z) : gmap string Z :=
  foldl (fun changes sample =>
           if decide (sample.2 = category) then Counter.iadd changes sample.1
           else changes)
        changes samples.

(** ** Further notions: texts *)

(** ASCII text: every character code is below 128. *)
Definition is_ascii (c : ascii) : bool := (nat_of_ascii c <? 128)%nat.

Definition ascii_text (text : list ascii) : Prop :=
  Forall (fun c => is_ascii c = true) text.

(** A text without ampersand holds no character reference: the pattern
    of [unescape] matches nowhere in it, so that the local function
    [fixup], with the exceptions of [chr] it does not catch, is never
    called on it. *)
Definition no_reference (text : string) : Prop :=
  "&"%char ∉ list_ascii_of_string text.

(** The text [add_article] reads from an article holds no character
    reference. *)
Definition plain_article (article : Article) : Prop :=
  no_reference (title article ++ " " ++ summary article).

(** ** Further notions: what a pattern can consume *)

(** Every character the item, or the pattern, can consume satisfies
    [P]. *)
Definition item_within (P : ascii -> bool) (i : Re.item) : Prop :=
  forall c, Re.item_matches i c = true -> P c = true.

Fixpoint consumes_only (P : ascii -> bool) (r : Re.regex) : Prop :=
  match r with
  | Re.Eps | Re.Boundary => True
  | Re.One i | Re.Rep _ _ _ i => item_within P i
  | Re.Cat r1 r2 | Re.Alt r1 r2 => consumes_only P r1 /\ consumes_only P r2
  | Re.G1 r1 => consumes_only P r1
  end.

(** The least number of characters a match of the pattern consumes. *)
Fixpoint min_len (r : Re.regex) : nat :=
  match r with
  | Re.Eps | Re.Boundary => 0
  | Re.One _ => 1
  | Re.Cat r1 r2 => min_len r1 + min_len r2
  | Re.Alt r1 r2 => Nat.min (min_len r1) (min_len r2)
  | Re.Rep lo _ _ _ => lo
  | Re.G1 r1 => min_len r1
  end.

(** The characters a token can be made of: word characters and the
    apostrophe. *)
Definition token_char (c : ascii) : bool :=
  Re.is_word c || Ascii.eqb c "'"%char.

(** ** Further notions: where a stopword matches *)

(** The rest of the subject after the prefix [w], if [w] is one. *)
Fixpoint strip_prefix (w s : list ascii) : option (list ascii) :=
  match w with
  | [] => Some s
  | c :: w' =>
      match s with
      | d :: s' => if Ascii.eqb d c then strip_prefix w' s' else None
      | [] => None
      end
  end.

(** The character before the position reached after reading [w]. *)
Definition last_of (prev : option ascii) (w : list ascii) : option ascii :=
  foldl (fun _ c => Some c) prev w.

(** The word [w] between two [\b] matches at the position [(prev, s)]. *)
Definition word_at (prev : option ascii) (s : list ascii) (w : string) : bool :=
  Re.at_boundary prev s
  && match strip_prefix (list_ascii_of_string w) s with
     | Some rest => Re.at_boundary (last_of prev (list_ascii_of_string w)) rest
     | None => false
     end.

(** A lowercase word, as the stopwords of NLTK are: one character or
    more, each a lowercase letter or an apostrophe. *)
Definition lowercase_word (w : string) : bool :=
  match list_ascii_of_string w with
  | [] => false
  | l => forallb (fun c => Re.between 97 122 c || Ascii.eqb c "'"%char) l
  end.

(** The non-empty prefixes of a text. *)
Fixpoint prefixes (s : list ascii) : list (list ascii) :=
  match s with
  | [] => []
  | c :: s' => [c] :: ((fun p => c :: p) <$> prefixes s')
  end.

(** The lowercase words that match between two [\b] at a position. *)
Definition words_at (prev : option ascii) (s : list ascii) : list string :=
  filter (fun w => lowercase_word w && word_at prev s w = true)
         (string_of_list_ascii <$> prefixes s).

(** [classify_text(text)] *)
Definition classify_text (ENGLISH_STOPWORDS : list string)
    (replacements : gmap string string) (stem fixup : string -> string)
    (self : TextClassifier) (text : string) : outcome (gmap string Qc) :=
  classify_features self (prepare_counter ENGLISH_STOPWORDS replacements stem fixup text).

(** ** The irregular-word table: [load_irregular_words] *)

(** [str.strip()] and [str.split(',')]; [strip] removes the characters
    at which [split()] splits. *)
Definition is_whitespace (c : ascii) : bool := is_space c.

Fixpoint lstrip (s : list ascii) : list ascii :=
  match s with
  | [] => []
  | c :: s' => if is_whitespace c then lstrip s' else s
  end.

Definition strip (s : list ascii) : list ascii :=
  rev (lstrip (rev (lstrip s))).

Fixpoint split_on (sep : ascii) (field : list ascii) (s : list ascii)
    : list (list ascii) :=
  match s with
  | [] => [rev field]
  | c :: s' =>
      if Ascii.eqb c sep then rev field :: split_on sep [] s'
      else split_on sep (c :: field) s'
  end.

(** [line.strip().split(',')] *)
Definition fields (line : string) : list string :=
  string_of_list_ascii <$> split_on ","%char [] (strip (list_ascii_of_string line)).

(** The body of the loop over the lines of the file:
    [first = line[0]; for word in line[1:]: replacements[word] = first]. *)
Definition load_line (replacements : gmap string string) (line : string)
    : gmap string string :=
  match fields line with
  | first :: words => foldl (fun r word => <[word := first]> r) replacements words
  | [] => replacements
  end.

(** [load_irregular_words()], on the lines of [irregular_words.csv] and
    the class attribute [replacements] it updates. *)
Definition load_irregular_words (lines : list string)
    (replacements : gmap string string) : gmap string string :=
  foldl load_line replacements lines.

(** The variant spellings a line lists: its fields after the first. *)
Definition variants (line : string) : list string := tail (fields line).

(** ** db_functions: pagination *)

(** The values an article dict holds. *)
Inductive value : Type :=
| VStr (s : string)
| VInt (n : Z)
| VBool (b : bool).

(** The loop of [paginate_articles] over [articles.values()], from the
    state [(current_page, i)]; the article dicts are updated in place,
    so the result is the updated ordered dict and the last page. *)
Fixpoint paginate_from (current_page i per_page : Z)
    (articles : list (string * gmap string value))
    : list (string * gmap string value) * Z :=
  match articles with
  | [] => ([], current_page)
  | (link, article) :: rest =>
      let i' := if decide (per_page <= i) then 0 else i in
      let current_page' :=
        if decide (per_page <= i) then current_page + 1 else current_page in
      let article' := <["page_number"%string := VInt current_page']> article in
      let r := paginate_from current_page' (i' + 1) per_page rest in
      ((link, article') :: r.1, r.2)
  end.

(** [paginate_articles(articles, per_page=30)] *)
Definition paginate_articles (articles : list (string * gmap string value))
    (per_page : Z) : list (string * gmap string value) * Z :=
  paginate_from 1 0 per_page articles.

(** ** Concrete inputs for the further properties *)

Definition sample_text : list ascii := list_ascii_of_string "it's a test 123".

Definition word_lines : list string := ["be,is,are"; "go,went,gone"]%string.

Definition three_articles : list (string * gmap string value) :=
  [ ("a"%string, {["title"%string := VStr "A"]});
    ("b"%string, {["title"%string := VStr "B"]});
    ("c"%string, {["title"%string := VStr "C"]}) ].

Definition empty_database : Database :=
  {| variables := ∅; history := []; blacklist := [] |}.

Definition write_blob {A : Type} (x : A) : string := "blob"%string.

Definition read_launch_counts (text : string) : option (gmap string (gmap string Qc)) :=
  Some (counts launch_model).

Definition read_launch_sample_counts (text : string) : option (gmap string Z) :=
  Some (sample_counts launch_model).

Definition read_nothing (text : string) : option (gmap string (gmap string Qc)) := None.

(** * Properties *)

Lemma bind_Ok {A B : Type} (a : A) (k : A -> outcome B) : (Ok a ≫= k) = k a.
Proof. reflexivity. Qed.

(** ** Dict loops that write one key per item *)

Section Upsert.

Context {A B : Type} (g : option B -> A -> B).

Lemma lookup_upsert (init : gmap string B) (m : gmap string A) (k : string) :
  map_fold (fun k v acc => <[k := g (acc !! k) v]> acc) init m !! k
  = match m !! k with
    | Some v => Some (g (init !! k) v)
    | None => init !! k
    end.
Proof.
  revert k.
  apply (map_fold_weak_ind
           (fun r m => forall k, r !! k = match m !! k with
                                          | Some v => Some (g (init !! k) v)
                                          | None => init !! k
                                          end)).
  - intros k. by rewrite lookup_empty.
  - intros i x m' r Hi IH k.
    destruct (decide (i = k)) as [->|Hne].
    + rewrite !lookup_insert_eq. by rewrite IH, Hi.
    + rewrite !lookup_insert_ne by done. apply IH.
Qed.

End Upsert.

Lemma lookup_add_items (self other : gmap string Z) (k : string) :
  Counter.add_items self other !! k
  = match other !! k with
    | Some v => Some (Counter.get self k + v)
    | None => self !! k
    end.
Proof.
  unfold Counter.add_items, Counter.get.
  apply (lookup_upsert (fun o v => default 0 o + v)).
Qed.

Lemma lookup_sub_items (self other : gmap string Z) (k : string) :
  Counter.sub_items self other !! k
  = match other !! k with
    | Some v => Some (Counter.get self k - v)
    | None => self !! k
    end.
Proof.
  unfold Counter.sub_items, Counter.get.
  apply (lookup_upsert (fun o v => default 0 o - v)).
Qed.

Lemma lookup_add_changes (n : Z) (changes : gmap string Z) (counter : gmap string Qc)
    (k : string) :
  add_changes n changes counter !! k
  = match changes !! k with
    | Some v => Some (Counter.getq counter k + Qc_of_Z v / Qc_of_Z n)%Qc
    | None => counter !! k
    end.
Proof.
  unfold add_changes, Counter.getq.
  apply (lookup_upsert (fun o v => (default 0 o + Qc_of_Z v / Qc_of_Z n)%Qc)).
Qed.

Lemma lookup_add_votes (probabilities result : gmap string Qc) (k : string) :
  add_votes probabilities result !! k
  = match probabilities !! k with
    | Some v => Some (Counter.getq result k + v)%Qc
    | None => result !! k
    end.
Proof.
  unfold add_votes, Counter.getq.
  apply (lookup_upsert (fun o v => (default 0 o + v)%Qc)).
Qed.

(** ** Counter arithmetic keeps the positive counts only *)

Lemma lookup_iadd (self other : gmap string Z) (k : string) (v : Z) :
  Counter.iadd self other !! k = Some v
  <-> Counter.add_items self other !! k = Some v /\ 0 < v.
Proof. unfold Counter.iadd, Counter._keep_positive. apply map_lookup_filter_Some. Qed.

Lemma lookup_isub (self other : gmap string Z) (k : string) (v : Z) :
  Counter.isub self other !! k = Some v
  <-> Counter.sub_items self other !! k = Some v /\ 0 < v.
Proof. unfold Counter.isub, Counter._keep_positive. apply map_lookup_filter_Some. Qed.

Lemma isub_positive (self other : gmap string Z) (k : string) (v : Z) :
  Counter.isub self other !! k = Some v -> 0 < v.
Proof. intros H. by apply lookup_isub in H as [_ ?]. Qed.

Lemma iadd_positive (self other : gmap string Z) (k : string) (v : Z) :
  Counter.iadd self other !! k = Some v -> 0 < v.
Proof. intros H. by apply lookup_iadd in H as [_ ?]. Qed.

(** On a Counter whose counts are positive, [+=] of non-negative counts
    is the key-wise sum. *)
Lemma get_iadd (self other : gmap string Z) (k : string) :
  (forall j v, self !! j = Some v -> 0 < v) ->
  nonnegative other ->
  Counter.get (Counter.iadd self other) k = Counter.get self k + Counter.get other k.
Proof.
  intros Hself Hother. unfold Counter.get at 1.
  destruct (Counter.iadd self other !! k) as [v|] eqn:E; simpl.
  - apply lookup_iadd in E as [E _]. rewrite lookup_add_items in E.
    unfold Counter.get at 2. destruct (other !! k) as [w|]; simpl.
    + by inversion E.
    + unfold Counter.get. rewrite E. simpl. lia.
  - assert (Hn : forall v, Counter.add_items self other !! k = Some v -> ~ 0 < v).
    { intros v Hv Hpos. assert (Counter.iadd self other !! k = Some v) as Hc
        by (by apply lookup_iadd). congruence. }
    rewrite lookup_add_items in Hn. unfold Counter.get in *.
    destruct (other !! k) as [w|] eqn:Ew; simpl.
    + specialize (Hother _ _ Ew). specialize (Hn _ eq_refl).
      destruct (self !! k) as [u|] eqn:Eu; simpl in *.
      * specialize (Hself _ _ Eu). lia.
      * lia.
    + destruct (self !! k) as [u|] eqn:Eu; simpl; [|done].
      specialize (Hself _ _ Eu). specialize (Hn _ eq_refl). lia.
Qed.

(** ** Staging: [add_sample] and [remove_sample] *)

Lemma add_sample_Ok (self : TextClassifier) (features : gmap string Z) (category : string)
    (changes : gmap string Z) (n : Z) :
  _counts_change self !! category = Some changes ->
  _sample_counts_change self !! category = Some n ->
  add_sample self features category
  = Ok {| _counts_change :=
            <[category := Counter.iadd changes features]> (_counts_change self);
          counts := counts self;
          sample_counts := sample_counts self;
          _sample_counts_change := <[category := n + 1]> (_sample_counts_change self) |}.
Proof. intros H1 H2. unfold add_sample, getitem. by rewrite H1, H2. Qed.

Lemma remove_sample_Ok (self : TextClassifier) (features : gmap string Z)
    (category : string) (changes : gmap string Z) (n : Z) :
  _counts_change self !! category = Some changes ->
  _sample_counts_change self !! category = Some n ->
  remove_sample self features category
  = Ok {| _counts_change :=
            <[category := Counter.isub changes features]> (_counts_change self);
          counts := counts self;
          sample_counts := sample_counts self;
          _sample_counts_change := <[category := n - 1]> (_sample_counts_change self) |}.
Proof. intros H1 H2. unfold remove_sample, getitem. by rewrite H1, H2. Qed.

(** After [remove_sample], no staged delta of the category is negative
    or zero, whatever was staged before and whatever is removed. *)
Lemma remove_sample_staged_positive (self self' : TextClassifier)
    (features : gmap string Z) (category : string) (changes : gmap string Z)
    (k : string) (v : Z) :
  remove_sample self features category = Ok self' ->
  _counts_change self' !! category = Some changes ->
  changes !! k = Some v ->
  0 < v.
Proof.
  unfold remove_sample, getitem.
  destruct (_counts_change self !! category) as [c|]; [|done].
  destruct (_sample_counts_change self !! category) as [n|]; [|done].
  simpl. intros [= <-]. simpl. rewrite lookup_insert_eq. intros [= <-].
  apply isub_positive.
Qed.

(** C3, at the failing input: on a freshly constructed model,
    [remove_sample] of the sample [{launch: 1}] from 'interesting'
    decrements the staged sample-count delta to -1 but leaves the
    category's staged changes empty: the delta -1 for 'launch' that
    the claim describes is dropped by the Counter's in-place
    subtraction. *)
Theorem remove_sample_drops_negative_delta :
  remove_sample (init ["interesting"; "boring"]%string) {["launch"%string := 1]}
                "interesting"
  = Ok {| _counts_change := <["interesting"%string := ∅]> (<["boring"%string := ∅]> ∅);
          counts := <["interesting"%string := ∅]> (<["boring"%string := ∅]> ∅);
          sample_counts := <["interesting"%string := 0]> (<["boring"%string := 0]> ∅);
          _sample_counts_change :=
            <["interesting"%string := -1]> (<["boring"%string := 0]> ∅) |}.
Proof. vm_compute. reflexivity. Qed.

(** C10: [add_sample] and [remove_sample] leave every category's
    FrequencyTable ([counts]) and committed [sample_counts] as they
    were; the only other outcome is the [KeyError] of a category the
    model was not constructed with. *)
Theorem staging_leaves_committed_state (self : TextClassifier)
    (features : gmap string Z) (category : string) :
  match add_sample self features category with
  | Ok self' => counts self' = counts self /\ sample_counts self' = sample_counts self
  | Raise e => e = KeyError /\ (_counts_change self !! category = None
                                \/ _sample_counts_change self !! category = None)
  end
  /\
  match remove_sample self features category with
  | Ok self' => counts self' = counts self /\ sample_counts self' = sample_counts self
  | Raise e => e = KeyError /\ (_counts_change self !! category = None
                                \/ _sample_counts_change self !! category = None)
  end.
Proof.
  unfold add_sample, remove_sample, getitem.
  destruct (_counts_change self !! category) as [c|];
    destruct (_sample_counts_change self !! category) as [n|]; simpl; auto.
Qed.

(** ** Committing: [apply_changes] *)

Lemma apply_changes_body_committed (category : string) (changes : gmap string Z)
    (self : TextClassifier) :
  apply_changes_body category changes self
  = p ← committed self category changes;
    Ok {| _counts_change := <[category := ∅]> (_counts_change self);
          counts := <[category := p.1]> (counts self);
          sample_counts := <[category := p.2]> (sample_counts self);
          _sample_counts_change := <[category := 0]> (_sample_counts_change self) |}.
Proof.
  unfold apply_changes_body, committed.
  destruct (getitem (sample_counts self) category) as [old|]; [|done]. simpl.
  destruct (getitem (_sample_counts_change self) category) as [d|]; [|done]. simpl.
  destruct (truediv old (old + d)) as [r|]; [|done]. simpl.
  destruct (getitem (counts self) category) as [counter|]; done.
Qed.

(** [committed] reads the state at its category only. *)
Lemma committed_ext (s s' : TextClassifier) (category : string) (changes : gmap string Z) :
  counts s' !! category = counts s !! category ->
  sample_counts s' !! category = sample_counts s !! category ->
  _sample_counts_change s' !! category = _sample_counts_change s !! category ->
  committed s' category changes = committed s category changes.
Proof. unfold committed, getitem. by intros -> -> ->. Qed.

Lemma apply_changes_loop (s0 : TextClassifier) (m : gmap string (gmap string Z)) :
  loop_invariant s0
    (map_fold (fun category changes acc =>
                 self' ← acc; apply_changes_body category changes self')
              (Ok s0) m)
    m.
Proof.
  apply (map_fold_weak_ind (loop_invariant s0)).
  - intros c. by rewrite lookup_empty.
  - intros i x m' r Hi IH. destruct r as [s|e]; simpl in *.
    + pose proof (IH i) as IHi. rewrite Hi in IHi. destruct IHi as (Hc & Hs & Hd & Hcc).
      rewrite apply_changes_body_committed.
      rewrite (committed_ext s0 s) by done.
      destruct (committed s0 i x) as [[table n]|e] eqn:E; simpl.
      * intros c. destruct (decide (i = c)) as [->|Hne].
        -- rewrite !lookup_insert_eq. exists table, n. by rewrite E.
        -- rewrite !lookup_insert_ne by done. apply IH.
      * exists i, x. by rewrite lookup_insert_eq.
    + destruct IH as (c & changes & Hm & Hr). exists c, changes. split; [|done].
      rewrite lookup_insert_ne; [done|]. intros ->. congruence.
Qed.

Lemma apply_changes_invariant (self : TextClassifier) :
  loop_invariant self (apply_changes self) (_counts_change self).
Proof. apply apply_changes_loop. Qed.

(** [apply_changes] completes exactly when every category can be
    committed. *)
Lemma apply_changes_Ok (self : TextClassifier) :
  (forall c changes, _counts_change self !! c = Some changes ->
                     exists p, committed self c changes = Ok p) ->
  exists self', apply_changes self = Ok self'.
Proof.
  intros H. pose proof (apply_changes_invariant self) as Hinv.
  destruct (apply_changes self) as [s|e]; [by eexists|].
  destruct Hinv as (c & changes & Hm & Hr).
  destruct (H _ _ Hm) as [p Hp]. congruence.
Qed.

Lemma apply_changes_Raise (self : TextClassifier) (c : string) (changes : gmap string Z)
    (e : exn) :
  _counts_change self !! c = Some changes ->
  committed self c changes = Raise e ->
  exists e', apply_changes self = Raise e'.
Proof.
  intros Hm Hr. pose proof (apply_changes_invariant self) as Hinv.
  destruct (apply_changes self) as [s|e']; [|by eexists].
  specialize (Hinv c). rewrite Hm in Hinv.
  destruct Hinv as (table & n & Hc & _). congruence.
Qed.

(** A category whose new total is zero cannot be committed: the
    division [old_count / new_sample_count] comes first. *)
Lemma committed_zero_total (self : TextClassifier) (c : string) (changes : gmap string Z)
    (old delta : Z) :
  sample_counts self !! c = Some old ->
  _sample_counts_change self !! c = Some delta ->
  old + delta = 0 ->
  committed self c changes = Raise ZeroDivisionError.
Proof.
  intros H1 H2 H0. unfold committed, getitem, truediv. rewrite H1, H2. simpl.
  by rewrite decide_True.
Qed.

(** Whenever some category has a zero new total, [apply_changes] does
    not complete. *)
Lemma apply_changes_zero_total (self : TextClassifier) (c : string)
    (changes : gmap string Z) (old delta : Z) :
  _counts_change self !! c = Some changes ->
  sample_counts self !! c = Some old ->
  _sample_counts_change self !! c = Some delta ->
  old + delta = 0 ->
  exists e, apply_changes self = Raise e.
Proof.
  intros Hm H1 H2 H0. eapply apply_changes_Raise; [done|].
  by eapply committed_zero_total.
Qed.

(** C1, at the failing input: on the freshly constructed two-category
    model with nothing staged, every category has new total 0 + 0 = 0,
    and [apply_changes] raises [ZeroDivisionError] at the division
    [old_count / new_sample_count] instead of completing. *)
Theorem apply_changes_fresh_model_raises :
  apply_changes (init ["interesting"; "boring"]%string) = Raise ZeroDivisionError.
Proof. vm_compute. reflexivity. Qed.

(** ** Sums over a dict *)

Section Sums.

Context {A : Type}.
Implicit Types (g h : string -> A -> Qc) (m : gmap string A).

Lemma sum_over_empty g : sum_over g (∅ : gmap string A) = 0%Qc.
Proof. unfold sum_over. by rewrite map_fold_empty. Qed.

Lemma sum_over_insert g m k v :
  m !! k = None -> sum_over g (<[k := v]> m) = (sum_over g m + g k v)%Qc.
Proof.
  intros Hk. unfold sum_over. rewrite map_fold_insert_L; [done| |done].
  intros. ring.
Qed.

Lemma sum_over_ext g h m :
  (forall k v, m !! k = Some v -> g k v = h k v) -> sum_over g m = sum_over h m.
Proof.
  induction m as [|k v m Hk IH] using map_ind; intros Hgh.
  - by rewrite !sum_over_empty.
  - rewrite !sum_over_insert by done. rewrite IH.
    + by rewrite (Hgh k v) by apply lookup_insert_eq.
    + intros j w Hj. apply Hgh. rewrite lookup_insert_ne; [done|]. intros ->. congruence.
Qed.

Lemma sum_over_plus g h m :
  sum_over (fun k v => g k v + h k v)%Qc m = (sum_over g m + sum_over h m)%Qc.
Proof.
  induction m as [|k v m Hk IH] using map_ind.
  - rewrite !sum_over_empty. ring.
  - rewrite !sum_over_insert by done. rewrite IH. ring.
Qed.

Lemma sum_over_scale (a : Qc) g m :
  sum_over (fun k v => a * g k v)%Qc m = (a * sum_over g m)%Qc.
Proof.
  induction m as [|k v m Hk IH] using map_ind.
  - rewrite !sum_over_empty. ring.
  - rewrite !sum_over_insert by done. rewrite IH. ring.
Qed.

Lemma sum_over_div (a : Qc) g m :
  sum_over (fun k v => g k v / a)%Qc m = (sum_over g m / a)%Qc.
Proof.
  unfold Qcdiv. rewrite <- (sum_over_ext (fun k v => / a * g k v)%Qc).
  - rewrite sum_over_scale. ring.
  - intros. ring.
Qed.

Lemma sum_over_const (a : Qc) m :
  sum_over (fun _ _ => a) m = (Qc_of_Z (Z.of_nat (size m)) * a)%Qc.
Proof.
  induction m as [|k v m Hk IH] using map_ind.
  - rewrite sum_over_empty, map_size_empty. change (Z.of_nat 0) with 0.
    rewrite Z2Qc_inj_0. ring.
  - rewrite sum_over_insert, map_size_insert_None by done. rewrite IH.
    rewrite Nat2Z.inj_succ, <- Z.add_1_r, Z2Qc_inj_add, Z2Qc_inj_1. ring.
Qed.

Lemma sum_over_nonneg g m :
  (forall k v, m !! k = Some v -> (0 <= g k v)%Qc) -> (0 <= sum_over g m)%Qc.
Proof.
  induction m as [|k v m Hk IH] using map_ind; intros Hg.
  - by rewrite sum_over_empty.
  - rewrite sum_over_insert by done. apply Qcplus_nonneg_nonneg.
    + apply IH. intros j w Hj. apply Hg.
      rewrite lookup_insert_ne; [done|]. intros ->. congruence.
    + apply Hg, lookup_insert_eq.
Qed.

Lemma sum_over_term_le g m k v :
  (forall j w, m !! j = Some w -> (0 <= g j w)%Qc) ->
  m !! k = Some v -> (g k v <= sum_over g m)%Qc.
Proof.
  intros Hg Hk.
  rewrite <- (insert_delete_id m k v) by done.
  rewrite sum_over_insert by apply lookup_delete_eq.
  rewrite <- (Qcplus_0_l (g k v)) at 1.
  apply Qcplus_le_mono_r. apply sum_over_nonneg.
  intros j w Hj. apply Hg. apply lookup_delete_Some in Hj. tauto.
Qed.

End Sums.

Lemma sum_over_fmap {A B : Type} (f : B -> A) (g : string -> A -> Qc)
    (m : gmap string B) :
  sum_over g (f <$> m) = sum_over (fun k v => g k (f v)) m.
Proof.
  induction m as [|k v m Hk IH] using map_ind.
  - by rewrite fmap_empty, !sum_over_empty.
  - rewrite fmap_insert.
    rewrite sum_over_insert by (by rewrite lookup_fmap, Hk).
    rewrite sum_over_insert by done. by rewrite IH.
Qed.

(** Sums over two dicts can be taken in either order. *)
Lemma sum_over_swap {A B : Type} (t : string -> A -> string -> B -> Qc)
    (m : gmap string A) (n : gmap string B) :
  sum_over (fun k v => sum_over (fun j w => t k v j w) n) m
  = sum_over (fun j w => sum_over (fun k v => t k v j w) m) n.
Proof.
  induction m as [|k v m Hk IH] using map_ind.
  - rewrite sum_over_empty. symmetry.
    rewrite (sum_over_ext _ (fun _ _ => 0%Qc)).
    + rewrite sum_over_const. ring.
    + intros. apply sum_over_empty.
  - rewrite sum_over_insert by done. rewrite IH.
    rewrite <- sum_over_plus. apply sum_over_ext.
    intros j w _. by rewrite sum_over_insert.
Qed.

(** A sum indexed by the keys only depends on the key set. *)
Lemma sum_over_keys {A B : Type} (t : string -> Qc) (m : gmap string A)
    (n : gmap string B) :
  dom m = dom n ->
  sum_over (fun k _ => t k) m = sum_over (fun k _ => t k) n.
Proof.
  revert n. induction m as [|k v m Hk IH] using map_ind; intros n Hdom.
  - rewrite dom_empty_L in Hdom. symmetry in Hdom. apply dom_empty_inv_L in Hdom.
    subst n. by rewrite !sum_over_empty.
  - assert (is_Some (n !! k)) as [w Hw].
    { apply elem_of_dom. rewrite <- Hdom, dom_insert_L. set_solver. }
    rewrite <- (insert_delete_id n k w) by done.
    rewrite !sum_over_insert by (done || apply lookup_delete_eq).
    rewrite (IH (delete k n)); [done|].
    rewrite dom_delete_L, <- Hdom, dom_insert_L.
    apply not_elem_of_dom in Hk. set_solver.
Qed.

(** ** Scoring one feature: [classify_feature] *)

(** The first loop: [sum_] and [feature_counts]. *)
Lemma classify_feature_counts (feature : string) (m : gmap string (gmap string Qc)) :
  map_fold (fun category counter (acc : Qc * gmap string Qc) =>
              let count := Counter.getq counter feature in
              ((acc.1 + count)%Qc, <[category := count]> acc.2))
           (0%Qc, ∅) m
  = (sum_over (fun _ counter => Counter.getq counter feature) m,
     (fun counter => Counter.getq counter feature) <$> m).
Proof.
  apply (map_fold_weak_ind
           (fun r m => r = (sum_over (fun _ counter => Counter.getq counter feature) m,
                            (fun counter => Counter.getq counter feature) <$> m))).
  - by rewrite sum_over_empty, fmap_empty.
  - intros i x m' r Hi ->. simpl. by rewrite sum_over_insert, fmap_insert.
Qed.

(** The last loop: [probabilities[k] = i / sum_] for every category. *)
Lemma classify_feature_shares (feature : string) (total : Qc)
    (m : gmap string (gmap string Qc)) :
  map_fold (fun k i probabilities => <[k := (i / total)%Qc]> probabilities)
           ((fun _ => 1%Qc) <$> m)
           ((fun counter => Counter.getq counter feature) <$> m)
  = (fun counter => (Counter.getq counter feature / total)%Qc) <$> m.
Proof.
  apply map_eq. intros k.
  rewrite (lookup_upsert (fun _ i => (i / total)%Qc)).
  rewrite !lookup_fmap. by destruct (m !! k).
Qed.

(** [classify_feature] case by case, the model without categories
    included. *)
Lemma classify_feature_cases (self : TextClassifier) (feature : string) :
  classify_feature self feature
  = if decide (feature_total self feature = 0%Qc)
    then if decide (counts self = ∅) then Raise ZeroDivisionError
         else Ok (uniform self)
    else Ok (shares self feature).
Proof.
  unfold classify_feature. rewrite classify_feature_counts.
  fold (feature_total self feature).
  destruct (decide (feature_total self feature = 0%Qc)) as [H0|Hn].
  - rewrite map_size_fmap. unfold truediv, uniform.
    destruct (decide (counts self = ∅)) as [He|Hne].
    + rewrite He, map_size_empty. by rewrite decide_True.
    + rewrite decide_False.
      * simpl. rewrite Z2Qc_inj_1. f_equal. apply map_eq. intros k.
        rewrite !lookup_fmap. by destruct (counts self !! k).
      * intros Hs. apply Hne, map_size_empty_iff. lia.
  - by rewrite classify_feature_shares.
Qed.

Lemma feature_total_absent (self : TextClassifier) (feature : string) :
  (forall c counter, counts self !! c = Some counter ->
                     Counter.getq counter feature = 0%Qc) ->
  feature_total self feature = 0%Qc.
Proof.
  intros H. unfold feature_total.
  rewrite (sum_over_ext _ (fun _ _ => 0%Qc)) by done.
  rewrite sum_over_const. ring.
Qed.

(** C5: for a model with at least one category, a feature that is absent
    from (or counted 0 in) every category's table has total 0, and
    [classify_feature] returns the uniform distribution, 1/|categories|
    for every category, when the total is 0, and otherwise, for every
    category, that category's entry (0 when absent) divided by the
    total. *)
Theorem classify_feature_distribution (self : TextClassifier) (feature : string) :
  counts self ≠ ∅ ->
  ((forall c counter, counts self !! c = Some counter ->
                      Counter.getq counter feature = 0%Qc) ->
   feature_total self feature = 0%Qc)
  /\ classify_feature self feature
     = Ok (if decide (feature_total self feature = 0%Qc)
           then (fun _ => (1 / Qc_of_Z (Z.of_nat (size (counts self))))%Qc) <$> counts self
           else (fun counter =>
                   (Counter.getq counter feature / feature_total self feature)%Qc)
                  <$> counts self).
Proof.
  intros Hne. split; [apply feature_total_absent|].
  rewrite classify_feature_cases.
  destruct (decide (feature_total self feature = 0%Qc)); [|done].
  by rewrite decide_False.
Qed.

(** ** Scoring a text: [classify_features] *)

Lemma getq_fmap {A : Type} (h : A -> Qc) (m : gmap string A) (k : string) :
  Counter.getq (h <$> m) k = match m !! k with Some v => h v | None => 0%Qc end.
Proof. unfold Counter.getq. rewrite lookup_fmap. by destruct (m !! k). Qed.

Lemma getq_add_votes (probabilities result : gmap string Qc) (k : string) :
  Counter.getq (add_votes probabilities result) k
  = (Counter.getq result k + Counter.getq probabilities k)%Qc.
Proof.
  unfold Counter.getq at 1. rewrite lookup_add_votes.
  unfold Counter.getq at 2 3.
  destruct (probabilities !! k); simpl; [done|]. fold (Counter.getq result k). ring.
Qed.

Lemma dom_add_votes (probabilities result : gmap string Qc) :
  dom (add_votes probabilities result) = dom probabilities ∪ dom result.
Proof.
  apply set_eq. intros k. rewrite elem_of_union, !elem_of_dom, lookup_add_votes.
  destruct (probabilities !! k) as [v|]; split; intros H; eauto.
  - destruct H as [H|H]; [by destruct H|done].
Qed.

Lemma getq_iter_add_votes (n : nat) (probabilities result : gmap string Qc) (k : string) :
  Counter.getq (Nat.iter n (add_votes probabilities) result) k
  = (Counter.getq result k + Qc_of_Z (Z.of_nat n) * Counter.getq probabilities k)%Qc.
Proof.
  induction n as [|n IH].
  - change (Z.of_nat 0) with 0. rewrite Z2Qc_inj_0. cbn [Nat.iter nat_rect]. ring.
  - rewrite Nat2Z.inj_succ, <- Z.add_1_r, Z2Qc_inj_add, Z2Qc_inj_1.
    change (Nat.iter (S n) (add_votes probabilities) result)
      with (add_votes probabilities (Nat.iter n (add_votes probabilities) result)).
    rewrite getq_add_votes, IH. ring.
Qed.

Lemma dom_iter_add_votes (n : nat) (probabilities result : gmap string Qc) :
  dom (Nat.iter n (add_votes probabilities) result)
  = match n with
    | O => dom result
    | S _ => dom probabilities ∪ dom result
    end.
Proof.
  induction n as [|n IH]; [done|].
  simpl. rewrite dom_add_votes, IH. destruct n; set_solver.
Qed.

Lemma classify_feature_Ok (self : TextClassifier) (feature : string) :
  counts self ≠ ∅ ->
  exists probabilities,
    classify_feature self feature = Ok probabilities
    /\ dom probabilities = dom (counts self).
Proof.
  intros Hne. rewrite classify_feature_cases.
  destruct (decide (feature_total self feature = 0%Qc)).
  - rewrite decide_False by done. eexists. split; [done|]. apply dom_fmap_L.
  - eexists. split; [done|]. apply dom_fmap_L.
Qed.

Lemma tally_loop (self : TextClassifier) (features : gmap string Z) :
  counts self ≠ ∅ ->
  tally_invariant self (tally self features) features.
Proof.
  intros Hne. unfold tally.
  apply (map_fold_weak_ind (tally_invariant self)).
  - exists ∅, 0. split; [done|]. split; [|split; [|split]].
    + by rewrite sum_over_empty, Z2Qc_inj_0.
    + intros c. by rewrite sum_over_empty.
    + by rewrite dom_empty_L.
    + intros (f & n & Hf & _). by rewrite lookup_empty in Hf.
  - intros i x m r Hi (result & length & -> & Hlen & Hget & Hsub & Hdom).
    destruct (classify_feature_Ok self i Hne) as (p & Hp & Hdp).
    cbv beta. rewrite bind_Ok. rewrite Hp. rewrite bind_Ok. cbn [fst snd].
    eexists _, _. split; [done|].
    split; [|split; [|split]].
    + rewrite sum_over_insert by done. by rewrite Z2Qc_inj_add, Hlen.
    + intros c. rewrite getq_iter_add_votes, sum_over_insert by done.
      assert (vote self i c = Counter.getq p c) as -> by (unfold vote; by rewrite Hp).
      by rewrite Hget.
    + rewrite dom_iter_add_votes. destruct (Z.to_nat x); set_solver.
    + intros (f & n & Hf & Hn). rewrite dom_iter_add_votes.
      destruct (decide (i = f)) as [->|Hif].
      * rewrite lookup_insert_eq in Hf. injection Hf as ->.
        destruct (Z.to_nat n) eqn:E; [lia|]. set_solver.
      * rewrite lookup_insert_ne in Hf by done.
        rewrite Hdom by eauto. destruct (Z.to_nat x); set_solver.
Qed.

Lemma total_occurrences_sum (features : gmap string Z) :
  Qc_of_Z (total_occurrences features) = sum_over (fun _ count => Qc_of_Z count) features.
Proof.
  unfold total_occurrences.
  induction features as [|k v m Hk IH] using map_ind.
  - by rewrite map_fold_empty, sum_over_empty, Z2Qc_inj_0.
  - rewrite map_fold_insert_L; [|intros; lia|done].
    by rewrite sum_over_insert, Z2Qc_inj_add, IH.
Qed.

Lemma total_occurrences_positive (features : gmap string Z) :
  nonnegative features ->
  0 < total_occurrences features ->
  exists feature count, features !! feature = Some count /\ 0 < count.
Proof.
  unfold total_occurrences.
  induction features as [|k v m Hk IH] using map_ind; intros Hnn Hpos.
  - rewrite map_fold_empty in Hpos. lia.
  - rewrite map_fold_insert_L in Hpos; [|intros; lia|done].
    destruct (decide (0 < v)) as [Hv|Hv].
    + exists k, v. by rewrite lookup_insert_eq.
    + destruct IH as (f & n & Hf & Hn).
      * intros j w Hj. apply (Hnn j). rewrite lookup_insert_ne; [done|].
        intros ->. congruence.
      * lia.
      * exists f, n. split; [|done]. rewrite lookup_insert_ne; [done|].
        intros ->. congruence.
Qed.

Lemma Qcdiv_nonneg (a b : Qc) : (0 <= a -> 0 < b -> 0 <= a / b)%Qc.
Proof.
  intros Ha Hb. unfold Qcdiv. apply Qcmult_nonneg_nonneg; [done|].
  by apply Qclt_le_weak, Qcinv_pos.
Qed.

Lemma size_positive {A : Type} (m : gmap string A) :
  m ≠ ∅ -> (0 < Qc_of_Z (Z.of_nat (size m)))%Qc.
Proof.
  intros Hne. rewrite <- Z2Qc_inj_0. apply (proj1 (Z2Qc_inj_lt _ _)).
  assert (size m ≠ 0%nat) by (by intros ?%map_size_empty_iff). lia.
Qed.

Section Votes.

Variable self : TextClassifier.
Hypothesis categories : counts self ≠ ∅.

Lemma vote_cases (feature c : string) :
  vote self feature c
  = if decide (feature_total self feature = 0%Qc)
    then Counter.getq (uniform self) c
    else Counter.getq (shares self feature) c.
Proof.
  unfold vote. rewrite classify_feature_cases.
  destruct (decide (feature_total self feature = 0%Qc)); [|done].
  by rewrite decide_False.
Qed.

(** The votes of one feature add up to 1 over the categories. *)
Lemma vote_sum (feature : string) :
  sum_over (fun c _ => vote self feature c) (counts self) = 1%Qc.
Proof.
  pose proof (size_positive _ categories) as Hsize.
  destruct (decide (feature_total self feature = 0%Qc)) as [H0|Hn].
  - rewrite (sum_over_ext _ (fun _ _ => (1 / Qc_of_Z (Z.of_nat (size (counts self))))%Qc)).
    + rewrite sum_over_const. field. intros Hz. rewrite Hz in Hsize.
      by apply Qclt_not_eq in Hsize.
    + intros c counter Hc. rewrite vote_cases, decide_True by done.
      unfold uniform. by rewrite getq_fmap, Hc.
  - rewrite (sum_over_ext _ (fun _ counter =>
               (Counter.getq counter feature / feature_total self feature)%Qc)).
    + rewrite sum_over_div. fold (feature_total self feature). by field.
    + intros c counter Hc. rewrite vote_cases, decide_False by done.
      unfold shares. by rewrite getq_fmap, Hc.
Qed.

Hypothesis frequencies : forall c counter k v,
  counts self !! c = Some counter -> counter !! k = Some v -> (0 <= v)%Qc.

Lemma getq_nonneg (c : string) (counter : gmap string Qc) (k : string) :
  counts self !! c = Some counter -> (0 <= Counter.getq counter k)%Qc.
Proof.
  intros Hc. unfold Counter.getq. destruct (counter !! k) as [v|] eqn:E; simpl.
  - by eapply frequencies.
  - done.
Qed.

Lemma vote_nonneg (feature c : string) : (0 <= vote self feature c)%Qc.
Proof.
  rewrite vote_cases.
  destruct (decide (feature_total self feature = 0%Qc)) as [H0|Hn].
  - unfold uniform. rewrite getq_fmap. destruct (counts self !! c); [|done].
    apply Qcdiv_nonneg; [done|]. by apply size_positive.
  - unfold shares. rewrite getq_fmap.
    destruct (counts self !! c) as [counter|] eqn:Hc; [|done].
    apply Qcdiv_nonneg; [by eapply getq_nonneg|].
    assert (0 <= feature_total self feature)%Qc as Hle.
    { apply sum_over_nonneg. intros j w Hj. by eapply getq_nonneg. }
    apply Qcle_lt_or_eq in Hle as [Hlt|Heq]; [done|]. by destruct Hn.
Qed.

End Votes.

(** The running totals of [classify_features] add up to the number of
    feature occurrences. *)
Lemma tally_total (self : TextClassifier) (features : gmap string Z)
    (result : gmap string Qc) :
  counts self ≠ ∅ ->
  dom result = dom (counts self) ->
  (forall c, Counter.getq result c
             = sum_over (fun feature count =>
                           Qc_of_Z (Z.of_nat (Z.to_nat count)) * vote self feature c)%Qc
                        features) ->
  sum_over (fun _ v => v) result
  = sum_over (fun _ count => Qc_of_Z (Z.of_nat (Z.to_nat count))) features.
Proof.
  intros Hne Hdom Hget.
  rewrite (sum_over_ext _ (fun c _ => Counter.getq result c)).
  2:{ intros c v Hc. unfold Counter.getq. by rewrite Hc. }
  rewrite (sum_over_keys _ result (counts self) Hdom).
  rewrite (sum_over_ext _ (fun c (_ : gmap string Qc) =>
             sum_over (fun feature count =>
                         Qc_of_Z (Z.of_nat (Z.to_nat count)) * vote self feature c)%Qc
                      features)).
  2:{ intros c v _. apply Hget. }
  rewrite (sum_over_swap
             (fun c (_ : gmap string Qc) feature count =>
                Qc_of_Z (Z.of_nat (Z.to_nat count)) * vote self feature c)%Qc).
  apply sum_over_ext. intros feature count _.
  rewrite sum_over_scale, vote_sum by done. ring.
Qed.



(** C8: on the empty FeatureCounts, [classify_features] returns the
    empty mapping: no turn of either loop runs, so the division by the
    zero [length] is never executed. *)
Theorem classify_features_empty (self : TextClassifier) :
  classify_features self ∅ = Ok ∅.
Proof.
  unfold classify_features, tally. rewrite map_fold_empty, bind_Ok. cbn [fst snd].
  by rewrite decide_True.
Qed.

(** ** The defects at concrete inputs *)

(** C2, at the failing input: in the model of the end-to-end scenario
    (one sample committed to each category, nothing staged), adding the
    sample [{launch: 1}] to 'interesting', committing, removing the same
    sample and committing again restores the sample count 1 of
    'interesting' but not its table: the frequency of 'launch' was 1
    before the add and is 2 afterwards, because [remove_sample] staged
    no negative delta and the second commit only rescaled by 2/1. *)
Theorem add_remove_does_not_restore :
  match
    (s0 ← two_samples;
     s1 ← add_sample s0 {["launch"%string := 1]} "interesting";
     s2 ← apply_changes s1;
     s3 ← remove_sample s2 {["launch"%string := 1]} "interesting";
     s4 ← apply_changes s3;
     Ok (s0, s4))
  with
  | Ok (s0, s4) =>
      frequency s0 "interesting" "launch" = Qc_of_Z 1
      /\ frequency s4 "interesting" "launch" = Qc_of_Z 2
      /\ sample_counts s0 !! "interesting"%string = Some 1
      /\ sample_counts s4 !! "interesting"%string = Some 1
  | Raise _ => False
  end.
Proof.
  vm_compute. repeat split; apply Qc_is_canon; reflexivity.
Qed.

(** C4, at the failing input: on the freshly constructed two-category
    model, staging the one-sample batch [{launch: 1}] into
    'interesting' and committing raises [ZeroDivisionError], because
    the loop of [apply_changes] also divides for 'boring', whose new
    total is 0; no frequency (k1 + k2) / (n1 + n2) is ever produced. *)
Theorem first_commit_raises_for_untrained_sibling :
  (s ← stage_batch (init ["interesting"; "boring"]%string)
                   [ {["launch"%string := 1]} ] "interesting";
   apply_changes s)
  = Raise ZeroDivisionError.
Proof. vm_compute. reflexivity. Qed.

(** ** The running mean, where [apply_changes] completes *)

Lemma stage_batch_Ok (category : string) (batch : list (gmap string Z)) :
  forall (self : TextClassifier) (changes : gmap string Z) (n : Z),
    _counts_change self !! category = Some changes ->
    _sample_counts_change self !! category = Some n ->
    (forall j v, changes !! j = Some v -> 0 < v) ->
    Forall nonnegative batch ->
    exists changes',
      stage_batch self batch category
      = Ok {| _counts_change := <[category := changes']> (_counts_change self);
              counts := counts self;
              sample_counts := sample_counts self;
              _sample_counts_change :=
                <[category := n + Z.of_nat (length batch)]> (_sample_counts_change self) |}
      /\ (forall k, Counter.get changes' k = Counter.get changes k + occurrences k batch)
      /\ (forall j v, changes' !! j = Some v -> 0 < v).
Proof.
  unfold stage_batch.
  induction batch as [|features batch IH]; intros self changes n Hc Hn Hpos Hnn.
  - exists changes. split; [|split; [|done]].
    + simpl. rewrite Z.add_0_r, !insert_id by done. by destruct self.
    + intros k. simpl. lia.
  - inversion_clear Hnn as [|? ? Hf Hnn'].
    rewrite fmap_cons. cbn [add_samples fst snd].
    rewrite (add_sample_Ok _ _ _ _ _ Hc Hn), bind_Ok.
    match goal with |- context [add_samples ?s _] => set (self1 := s) end.
    destruct (IH self1 (Counter.iadd changes features) (n + 1))
      as (changes' & Hrun & Hget & Hpos');
      [apply lookup_insert_eq | apply lookup_insert_eq | apply iadd_positive | done |].
    exists changes'. split; [|split; [|done]].
    + rewrite Hrun. unfold self1.
      cbn [_counts_change counts sample_counts _sample_counts_change].
      rewrite !insert_insert_eq. do 3 f_equal. rewrite length_cons. lia.
    + intros k. rewrite Hget, get_iadd by done. simpl. lia.
Qed.

Lemma ratio_nonzero (old new : Z) :
  new ≠ 0 -> ((Qc_of_Z old / Qc_of_Z new)%Qc ≠ 0%Qc <-> old ≠ 0).
Proof.
  intros Hnew.
  assert (Qc_of_Z new ≠ 0%Qc) as Hq.
  { rewrite <- Z2Qc_inj_0. by intros ?%Z2Qc_inj. }
  split.
  - intros Hr ->. apply Hr. rewrite Z2Qc_inj_0. by field.
  - intros Hold Hr. apply Hold, Z2Qc_inj. rewrite Z2Qc_inj_0.
    rewrite <- (Qcmult_div_r (Qc_of_Z old) (Qc_of_Z new)) by done.
    rewrite Hr. ring.
Qed.

Lemma getq_rescale (r : Qc) (counter : gmap string Qc) (k : string) :
  Counter.getq (rescale r counter) k = (Counter.getq counter k * r)%Qc.
Proof.
  unfold rescale. rewrite getq_fmap. unfold Counter.getq.
  destruct (counter !! k); simpl; [done|ring].
Qed.

Lemma getq_add_changes (n : Z) (changes : gmap string Z) (counter : gmap string Qc)
    (k : string) :
  Counter.getq (add_changes n changes counter) k
  = (Counter.getq counter k + Qc_of_Z (Counter.get changes k) / Qc_of_Z n)%Qc.
Proof.
  unfold Counter.getq at 1. rewrite lookup_add_changes. unfold Counter.get.
  destruct (changes !! k) as [v|]; simpl; [done|].
  fold (Counter.getq counter k). rewrite Z2Qc_inj_0. unfold Qcdiv. ring.
Qed.

Lemma committed_Ok (self : TextClassifier) (c : string) (changes : gmap string Z)
    (old delta : Z) (counter : gmap string Qc) :
  sample_counts self !! c = Some old ->
  _sample_counts_change self !! c = Some delta ->
  counts self !! c = Some counter ->
  old + delta ≠ 0 ->
  committed self c changes
  = Ok (add_changes (old + delta) changes
          (if decide (old ≠ 0)
           then rescale (Qc_of_Z old / Qc_of_Z (old + delta))%Qc counter
           else counter),
        old + delta).
Proof.
  intros H1 H2 H3 Hnew. unfold committed, getitem, truediv.
  rewrite H1, H2, H3. simpl. rewrite decide_False by done. simpl.
  do 3 f_equal.
  destruct (decide (old ≠ 0)) as [Ho|Ho].
  - rewrite decide_True; [done|]. by apply ratio_nonzero.
  - rewrite decide_False; [done|]. by rewrite ratio_nonzero.
Qed.

Lemma committable_committed (self : TextClassifier) (c : string)
    (changes : gmap string Z) :
  committable self c -> exists p, committed self c changes = Ok p.
Proof.
  intros (old & delta & counter & H1 & H2 & H3 & Hnew).
  eexists. by apply committed_Ok.
Qed.

Lemma apply_changes_committable (self : TextClassifier) :
  (forall c changes, _counts_change self !! c = Some changes -> committable self c) ->
  exists self', apply_changes self = Ok self'.
Proof.
  intros H. apply apply_changes_Ok. intros c changes Hc.
  apply committable_committed. by eapply H.
Qed.

(** What a completed [apply_changes] did to a category. *)
Lemma apply_changes_at (self self' : TextClassifier) (c : string)
    (changes : gmap string Z) (old delta : Z) (counter : gmap string Qc) :
  apply_changes self = Ok self' ->
  _counts_change self !! c = Some changes ->
  sample_counts self !! c = Some old ->
  _sample_counts_change self !! c = Some delta ->
  counts self !! c = Some counter ->
  old + delta ≠ 0 ->
  counts self' !! c
  = Some (add_changes (old + delta) changes
            (if decide (old ≠ 0)
             then rescale (Qc_of_Z old / Qc_of_Z (old + delta))%Qc counter
             else counter))
  /\ sample_counts self' !! c = Some (old + delta)
  /\ _counts_change self' !! c = Some ∅
  /\ _sample_counts_change self' !! c = Some 0.
Proof.
  intros Hrun Hm H1 H2 H3 Hnew.
  pose proof (apply_changes_invariant self) as Hinv. rewrite Hrun in Hinv.
  specialize (Hinv c). rewrite Hm in Hinv.
  destruct Hinv as (table & n & Hc & Ht & Hn & Hcc & Hd).
  rewrite (committed_Ok _ _ _ _ _ _ H1 H2 H3 Hnew) in Hc. by injection Hc as <- <-.
Qed.

(** After a completed [apply_changes], every category can be committed
    again. *)
Lemma apply_changes_stays_committable (self self' : TextClassifier) :
  apply_changes self = Ok self' ->
  (forall c changes, _counts_change self !! c = Some changes -> committable self c) ->
  forall c changes, _counts_change self' !! c = Some changes -> committable self' c.
Proof.
  intros Hrun Hall c changes Hc.
  pose proof (apply_changes_invariant self) as Hinv. rewrite Hrun in Hinv.
  pose proof (Hinv c) as Hinvc.
  destruct (_counts_change self !! c) as [ch|] eqn:Hm.
  - destruct (Hall _ _ Hm) as (old & delta & counter & H1 & H2 & H3 & Hnew).
    destruct (apply_changes_at _ _ _ _ _ _ _ Hrun Hm H1 H2 H3 Hnew) as (Ht & Hn & _ & Hd).
    eexists _, _, _. repeat split; [done..|lia].
  - destruct Hinvc as (_ & _ & _ & Hcc). congruence.
Qed.

(** The running mean (the property C4 describes), for every model in
    which both commits complete: [c] is a category without committed
    samples and with nothing staged, every other category can be
    committed, and two non-empty batches of FeatureCounts are staged
    into [c] and committed one after the other.  Then the frequency of
    every feature [f] in [c] is (k1 + k2) / (n1 + n2). *)
Lemma mean_preservation (self : TextClassifier) (c : string)
    (S1 S2 : list (gmap string Z)) :
  untrained self c ->
  (forall c' changes, c' ≠ c -> _counts_change self !! c' = Some changes ->
                      committable self c') ->
  Forall nonnegative S1 -> Forall nonnegative S2 ->
  S1 ≠ [] -> S2 ≠ [] ->
  exists s1 s2 s3 s4,
    stage_batch self S1 c = Ok s1
    /\ apply_changes s1 = Ok s2
    /\ stage_batch s2 S2 c = Ok s3
    /\ apply_changes s3 = Ok s4
    /\ forall f,
         frequency s4 c f
         = (Qc_of_Z (occurrences f S1 + occurrences f S2)
            / Qc_of_Z (Z.of_nat (length S1) + Z.of_nat (length S2)))%Qc.
Proof.
  intros (Hc0 & Hd0 & Hn0 & Ht0) Hothers Hnn1 Hnn2 Hne1 Hne2.
  assert (0 < Z.of_nat (length S1)) as Hlen1 by (destruct S1; [done|simpl; lia]).
  assert (0 < Z.of_nat (length S2)) as Hlen2 by (destruct S2; [done|simpl; lia]).
  set (n1 := Z.of_nat (length S1)) in *. set (n2 := Z.of_nat (length S2)) in *.
  (* the first batch *)
  destruct (stage_batch_Ok c S1 self ∅ 0 Hc0 Hd0) as (st1 & Hs1 & Hget1 & _);
    [by intros j v; rewrite lookup_empty | done |].
  fold n1 in Hs1. rewrite Z.add_0_l in Hs1.
  match type of Hs1 with _ = Ok ?s => set (s1 := s) in * end.
  assert (forall c' changes, _counts_change s1 !! c' = Some changes -> committable s1 c')
    as Hall1.
  { intros c' changes Hc'. unfold s1 in *. simpl in *.
    destruct (decide (c' = c)) as [->|Hne].
    - exists 0, n1, ∅. simpl. rewrite lookup_insert_eq. repeat split; [done..|lia].
    - rewrite lookup_insert_ne in Hc' by done.
      destruct (Hothers _ _ Hne Hc') as (old & delta & counter & H1 & H2 & H3 & Hnew).
      exists old, delta, counter. simpl. by rewrite lookup_insert_ne. }
  destruct (apply_changes_committable s1 Hall1) as [s2 Hs2].
  destruct (apply_changes_at s1 s2 c st1 0 n1 ∅ Hs2) as (Ht2 & Hn2 & Hc2 & Hd2);
    [unfold s1; simpl; apply lookup_insert_eq | done
     | unfold s1; simpl; apply lookup_insert_eq | done | lia |].
  rewrite decide_False in Ht2 by lia. rewrite Z.add_0_l in Ht2, Hn2.
  pose proof (apply_changes_stays_committable _ _ Hs2 Hall1) as Hall2.
  (* the second batch *)
  destruct (stage_batch_Ok c S2 s2 ∅ 0 Hc2 Hd2) as (st2 & Hs3 & Hget2 & _);
    [by intros j v; rewrite lookup_empty | done |].
  fold n2 in Hs3. rewrite Z.add_0_l in Hs3.
  match type of Hs3 with _ = Ok ?s => set (s3 := s) in * end.
  assert (forall c' changes, _counts_change s3 !! c' = Some changes -> committable s3 c')
    as Hall3.
  { intros c' changes Hc'. unfold s3 in *. simpl in *.
    destruct (decide (c' = c)) as [->|Hne].
    - eexists n1, n2, _. simpl. rewrite lookup_insert_eq. repeat split; [done..|lia].
    - rewrite lookup_insert_ne in Hc' by done.
      destruct (Hall2 _ _ Hc') as (old & delta & counter & H1 & H2 & H3 & Hnew).
      exists old, delta, counter. simpl. by rewrite lookup_insert_ne. }
  destruct (apply_changes_committable s3 Hall3) as [s4 Hs4].
  destruct (apply_changes_at s3 s4 c st2 n1 n2 (add_changes n1 st1 ∅) Hs4) as (Ht4 & _);
    [unfold s3; simpl; apply lookup_insert_eq | done
     | unfold s3; simpl; apply lookup_insert_eq | exact Ht2 | lia |].
  rewrite decide_True in Ht4 by lia.
  exists s1, s2, s3, s4. repeat split; try done.
  intros f. unfold frequency. rewrite Ht4. simpl.
  rewrite getq_add_changes, getq_rescale, getq_add_changes.
  rewrite Hget1, Hget2. unfold Counter.getq, Counter.get. rewrite !lookup_empty. simpl.
  rewrite !Z2Qc_inj_add.
  assert (Qc_of_Z n1 ≠ 0%Qc) as Hq1.
  { rewrite <- Z2Qc_inj_0. intros ?%Z2Qc_inj. lia. }
  assert ((Qc_of_Z n1 + Qc_of_Z n2)%Qc ≠ 0%Qc) as Hq2.
  { rewrite <- Z2Qc_inj_add, <- Z2Qc_inj_0. intros ?%Z2Qc_inj. lia. }
  rewrite Z2Qc_inj_0. by field.
Qed.

Lemma mean_preservation_example :
  exists s4,
    (s1 ← stage_batch (init ["interesting"]%string)
                      [ {["launch"%string := 2]}; {["rocket"%string := 1]} ] "interesting";
     s2 ← apply_changes s1;
     s3 ← stage_batch s2 [ {["launch"%string := 1]} ] "interesting";
     apply_changes s3) = Ok s4
    /\ frequency s4 "interesting" "launch" = (Qc_of_Z 3 / Qc_of_Z 3)%Qc.
Proof.
  destruct (mean_preservation (init ["interesting"]%string) "interesting"
              [ {["launch"%string := 2]}; {["rocket"%string := 1]} ]
              [ {["launch"%string := 1]} ])
    as (s1 & s2 & s3 & s4 & H1 & H2 & H3 & H4 & Hf).
  - by vm_compute.
  - intros c' changes Hne. simpl. rewrite lookup_insert_ne by done.
    by rewrite lookup_empty.
  - repeat constructor; intros k v [<- <-]%lookup_singleton_Some; lia.
  - repeat constructor; intros k v [<- <-]%lookup_singleton_Some; lia.
  - done.
  - done.
  - exists s4. rewrite H1, bind_Ok, H2, bind_Ok, H3, bind_Ok, H4. split; [done|].
    by rewrite Hf.
Qed.

(** ** Loading the model: [loadClassifier] *)

Lemma count_words_positive (words : list string) (k : string) (v : Z) :
  count_words words !! k = Some v -> 0 < v.
Proof.
  unfold count_words.
  assert (forall (c : gmap string Z),
            (forall j w, c !! j = Some w -> 0 < w) ->
            forall j w,
              foldl (fun c w => <[w := Counter.get c w + 1]> c) c words !! j = Some w ->
              0 < w) as H.
  { induction words as [|x words IH]; intros c Hc j w; simpl; [apply Hc|].
    apply IH. intros j' w'. destruct (decide (x = j')) as [->|Hne].
    - rewrite lookup_insert_eq. intros [= <-]. unfold Counter.get.
      destruct (c !! j') as [u|] eqn:E; simpl; [|lia]. specialize (Hc _ _ E). lia.
    - rewrite lookup_insert_ne by done. apply Hc. }
  apply H. intros j w. by rewrite lookup_empty.
Qed.

Section Loading.

Variable ENGLISH_STOPWORDS : list string.
Variable replacements : gmap string string.
Variable stem : string -> string.
Variable fixup : string -> string.
Variable dumps_counts : gmap string (gmap string Qc) -> string.
Variable loads_counts : string -> option (gmap string (gmap string Qc)).
Variable dumps_sample_counts : gmap string Z -> string.
Variable loads_sample_counts : string -> option (gmap string Z).

Local Abbreviation prepare := (prepare_article ENGLISH_STOPWORDS replacements stem fixup).
Local Abbreviation load := (loadClassifier ENGLISH_STOPWORDS replacements stem fixup
                                 dumps_counts loads_counts
                                 dumps_sample_counts loads_sample_counts).
Local Abbreviation save := (saveClassifier dumps_counts dumps_sample_counts).

Lemma prepare_nonnegative (article : Article) : nonnegative (prepare article).
Proof.
  intros k v H. apply count_words_positive in H. lia.
Qed.

Lemma add_each_stage_batch (articles : list Article) (category : string) :
  forall self,
    add_each ENGLISH_STOPWORDS replacements stem fixup self articles category
    = stage_batch self (prepare <$> articles) category.
Proof.
  unfold stage_batch.
  induction articles as [|i articles IH]; intros self; [done|].
  rewrite !fmap_cons. cbn [add_each add_samples fst snd].
  unfold add_article at 1, prepare_article at 1.
  destruct (add_sample self _ category) as [self'|e]; [|done].
  rewrite !bind_Ok. apply IH.
Qed.

(** When the counts blob cannot be parsed, the model is retrained from
    the freshly constructed object. *)
Lemma loadClassifier_without_counts (db : Database)
    (interesting_articles blacklist : option (list Article)) :
  loads_counts (get_var db "classifier_counts" EmptyString) = None ->
  load db interesting_articles blacklist
  = retrain ENGLISH_STOPWORDS replacements stem fixup dumps_counts dumps_sample_counts
            db (init ["interesting"; "boring"]%string) interesting_articles blacklist.
Proof. intros H. unfold loadClassifier. by rewrite H. Qed.

(** C7, the divergence: when the counts blob parses and the
    sample-counts blob is absent or unparsable, [loadClassifier] does
    retrain from the corpus and saves the result, but it starts from the
    loaded table, not from an empty one: the first statement of the
    [try] block has already replaced [classifier.counts], and with an
    old count of 0 [apply_changes] adds the new frequencies on top of
    the entries it finds.  Every frequency of 'interesting' is the
    loaded one plus the one of the corpus. *)
Theorem loadClassifier_retrains_over_loaded_counts (db : Database)
    (interesting_articles blacklist : list Article)
    (loaded : gmap string (gmap string Qc)) (table table' : gmap string Qc) :
  loads_counts (get_var db "classifier_counts" EmptyString) = Some loaded ->
  loads_sample_counts (get_var db "classifier_sample_counts" EmptyString) = None ->
  loaded !! "interesting"%string = Some table ->
  loaded !! "boring"%string = Some table' ->
  interesting_articles ≠ [] ->
  blacklist ≠ [] ->
  exists classifier,
    load db (Some interesting_articles) (Some blacklist)
    = Ok (classifier, save db classifier)
    /\ forall f,
         frequency classifier "interesting" f
         = (Counter.getq table f
            + Qc_of_Z (occurrences f (prepare <$> interesting_articles))
              / Qc_of_Z (Z.of_nat (length interesting_articles)))%Qc.
Proof.
  intros Hcounts Hsamples Hi Hb Hne1 Hne2.
  assert (0 < Z.of_nat (length interesting_articles)) as Hlen1
      by (destruct interesting_articles; [done|simpl; lia]).
  assert (0 < Z.of_nat (length blacklist)) as Hlen2
      by (destruct blacklist; [done|simpl; lia]).
  unfold loadClassifier. rewrite Hcounts, Hsamples. unfold retrain.
  cbn [default from_option id]. rewrite add_each_stage_batch.
  cbn [init foldl _counts_change counts sample_counts _sample_counts_change].
  match goal with |- context [stage_batch ?s _ "interesting"] => set (s0 := s) end.
  destruct (stage_batch_Ok "interesting" (prepare <$> interesting_articles) s0 ∅ 0)
    as (st1 & Hs1 & Hget1 & _);
    [ done | done | by intros j v; rewrite lookup_empty
    | apply Forall_fmap, Forall_forall; intros; apply prepare_nonnegative |].
  rewrite Hs1, bind_Ok, add_each_stage_batch. rewrite length_fmap, Z.add_0_l in *.
  match goal with |- context [stage_batch ?s _ "boring"] => set (s1 := s) in * end.
  destruct (stage_batch_Ok "boring" (prepare <$> blacklist) s1 ∅ 0)
    as (st2 & Hs2 & Hget2 & _);
    [ done | done | by intros j v; rewrite lookup_empty
    | apply Forall_fmap, Forall_forall; intros; apply prepare_nonnegative |].
  rewrite Hs2, bind_Ok. rewrite length_fmap, Z.add_0_l in *.
  match goal with |- context [apply_changes ?s] => set (s2 := s) in * end.
  assert (forall c changes, _counts_change s2 !! c = Some changes -> committable s2 c)
    as Hall.
  { intros c changes Hc. unfold s2, s1, s0 in *. simpl in *.
    destruct (decide (c = "boring"%string)) as [->|Hnb].
    - exists 0, (Z.of_nat (length blacklist)), table'. repeat split; [done..|lia].
    - destruct (decide (c = "interesting"%string)) as [->|Hni].
      + exists 0, (Z.of_nat (length interesting_articles)), table.
        repeat split; [done..|lia].
      + rewrite !lookup_insert_ne in Hc by done. by rewrite lookup_empty in Hc. }
  destruct (apply_changes_committable s2 Hall) as [s3 Hs3].
  rewrite Hs3, bind_Ok. exists s3. split; [done|].
  destruct (apply_changes_at s2 s3 "interesting" st1 0
              (Z.of_nat (length interesting_articles)) table Hs3)
    as (Ht & _); [done | done | done | done | lia |].
  rewrite decide_False in Ht by lia.
  intros f. unfold frequency. rewrite Ht. simpl.
  rewrite getq_add_changes, Hget1. unfold Counter.get. rewrite lookup_empty. simpl.
  by rewrite Z.add_0_l.
Qed.

End Loading.

(** ** The normalizer on the example of the specification *)

(** A literal word matches exactly when it is a prefix of the subject. *)
Lemma rmatch_lit (w : string) (k : Re.cont) :
  forall (prev : option ascii) (s g : list ascii),
    Re.rmatch (Re.lit w) prev s g k
    = match strip_prefix (list_ascii_of_string w) s with
      | Some rest => k (last_of prev (list_ascii_of_string w)) rest g
      | None => None
      end.
Proof.
  unfold Re.lit, last_of. induction (list_ascii_of_string w) as [|c l IH]; intros prev s g.
  - reflexivity.
  - cbn [foldr Re.rmatch strip_prefix foldl Re.item_matches]. destruct s as [|d s]; [done|].
    destruct (Ascii.eqb d c) eqn:E; [|done].
    apply Ascii.eqb_eq in E. subst d. apply IH.
Qed.

(** An alternation is tried left to right. *)
Lemma rmatch_alts (rs : list Re.regex) (prev : option ascii) (s g : list ascii) (k : Re.cont) :
  rs ≠ [] ->
  Re.rmatch (Re.alts rs) prev s g k
  = foldr (fun r rest => match Re.rmatch r prev s g k with Some m => Some m | None => rest end)
          None rs.
Proof.
  induction rs as [|r rs IH]; [done|]. intros _.
  destruct rs as [|r' rs].
  - simpl. by destruct (Re.rmatch r prev s g k).
  - change (Re.alts (r :: r' :: rs)) with (Re.Alt r (Re.alts (r' :: rs))).
    cbn [Re.rmatch foldr]. rewrite IH by done. reflexivity.
Qed.

Lemma strip_prefix_Some (w s rest : list ascii) :
  strip_prefix w s = Some rest -> s = w ++ rest.
Proof.
  revert s. induction w as [|c w IH]; intros s; simpl.
  - by intros [= ->].
  - destruct s as [|d s]; [done|]. destruct (Ascii.eqb d c) eqn:E; [|done].
    apply Ascii.eqb_eq in E. subst d. intros H. by rewrite (IH _ H).
Qed.

Lemma prefixes_app (w rest : list ascii) : w ≠ [] -> w ∈ prefixes (w ++ rest).
Proof.
  revert rest. induction w as [|c w IH]; intros rest Hne; [done|].
  simpl. destruct w as [|c' w].
  - apply list_elem_of_here.
  - apply list_elem_of_further. apply list_elem_of_fmap. exists (c' :: w). split; [done|].
    by apply IH.
Qed.

Lemma word_at_words_at (prev : option ascii) (s : list ascii) (w : string) :
  lowercase_word w = true -> word_at prev s w = true -> w ∈ words_at prev s.
Proof.
  intros Hw Hm. unfold words_at. apply list_elem_of_filter. split.
  - by rewrite Hw, Hm.
  - apply list_elem_of_fmap. exists (list_ascii_of_string w).
    split; [by rewrite string_of_list_ascii_of_string|].
    unfold word_at in Hm. apply andb_true_iff in Hm as [_ Hm].
    destruct (strip_prefix (list_ascii_of_string w) s) as [rest|] eqn:Hs; [|done].
    apply strip_prefix_Some in Hs. subst s. apply prefixes_app.
    unfold lowercase_word in Hw. by destruct (list_ascii_of_string w).
Qed.

(** The stopword pattern at one position: the first word of the list
    that matches there between two word boundaries. *)
Section Stopwords.

Variable ENGLISH_STOPWORDS : list string.
Hypothesis lowercase : Forall (fun w => lowercase_word w = true) ENGLISH_STOPWORDS.
Hypothesis nonempty : ENGLISH_STOPWORDS ≠ [].

Lemma match_at_stopwords (prev : option ascii) (s : list ascii) :
  Re.match_at (re_stopwords ENGLISH_STOPWORDS) prev s
  = foldr (fun w rest =>
             if word_at prev s w
             then match strip_prefix (list_ascii_of_string w) s with
                  | Some r => Some ([], r, last_of prev (list_ascii_of_string w))
                  | None => rest
                  end
             else rest)
          None ENGLISH_STOPWORDS.
Proof.
  unfold Re.match_at, re_stopwords. cbn [Re.rmatch].
  destruct (Re.at_boundary prev s) eqn:Hb.
  - rewrite rmatch_alts by (by destruct ENGLISH_STOPWORDS).
    assert (forall w, word_at prev s w
                      = match strip_prefix (list_ascii_of_string w) s with
                        | Some rest =>
                            Re.at_boundary (last_of prev (list_ascii_of_string w)) rest
                        | None => false
                        end) as Hw
        by (intros w; unfold word_at; by rewrite Hb).
    clear lowercase nonempty. induction ENGLISH_STOPWORDS as [|w ws IH]; [done|].
    cbn [fmap list_fmap foldr]. rewrite IH, rmatch_lit, (Hw w).
    destruct (strip_prefix (list_ascii_of_string w) s) as [r|]; [|done].
    by destruct (Re.at_boundary (last_of prev (list_ascii_of_string w)) r).
  - assert (forall w, word_at prev s w = false) as Hw
        by (intros w; unfold word_at; by rewrite Hb).
    clear lowercase nonempty. induction ENGLISH_STOPWORDS as [|w ws IH]; [done|].
    cbn [foldr]. by rewrite Hw.
Qed.

Lemma match_at_stopwords_None (prev : option ascii) (s : list ascii) :
  Forall (fun w => w ∉ ENGLISH_STOPWORDS) (words_at prev s) ->
  Re.match_at (re_stopwords ENGLISH_STOPWORDS) prev s = None.
Proof.
  intros Hnone. rewrite match_at_stopwords.
  assert (forall w, w ∈ ENGLISH_STOPWORDS -> word_at prev s w = false) as Hno.
  { intros w Hw. destruct (word_at prev s w) eqn:Hm; [|done]. exfalso.
    rewrite List.Forall_forall in lowercase, Hnone.
    apply (Hnone w); [|done]. apply list_elem_of_In, word_at_words_at; [|done].
    apply lowercase. by apply list_elem_of_In. }
  clear lowercase nonempty Hnone.
  induction ENGLISH_STOPWORDS as [|w ws IH]; [done|].
  cbn [foldr]. rewrite (Hno w) by apply list_elem_of_here.
  apply IH. intros w' Hw'. apply Hno. by apply list_elem_of_further.
Qed.

Lemma match_at_stopwords_Some (prev : option ascii) (s : list ascii) (w0 : string)
    (rest : list ascii) :
  w0 ∈ ENGLISH_STOPWORDS ->
  words_at prev s = [w0] ->
  strip_prefix (list_ascii_of_string w0) s = Some rest ->
  Re.match_at (re_stopwords ENGLISH_STOPWORDS) prev s
  = Some ([], rest, last_of prev (list_ascii_of_string w0)).
Proof.
  intros Hin Hone Hrest. rewrite match_at_stopwords.
  assert (forall w, w ∈ ENGLISH_STOPWORDS -> word_at prev s w = true -> w = w0) as Hsame.
  { intros w Hw Hm. rewrite List.Forall_forall in lowercase.
    assert (w ∈ words_at prev s) as Hc.
    { apply word_at_words_at; [|done]. apply lowercase. by apply list_elem_of_In. }
    rewrite Hone in Hc. by apply list_elem_of_singleton in Hc. }
  assert (word_at prev s w0 = true) as Hm0.
  { assert (w0 ∈ words_at prev s) as Hc by (rewrite Hone; apply list_elem_of_here).
    unfold words_at in Hc. apply list_elem_of_filter in Hc as [Hc _].
    apply andb_true_iff in Hc as [_ Hc]. done. }
  clear lowercase nonempty Hone.
  induction ENGLISH_STOPWORDS as [|w ws IH]; [by apply not_elem_of_nil in Hin|].
  cbn [foldr]. destruct (word_at prev s w) eqn:Hm.
  - rewrite (Hsame w) by (done || apply list_elem_of_here). by rewrite Hrest.
  - apply elem_of_cons in Hin as [->|Hin]; [congruence|].
    apply IH; [done|]. intros w' Hw'. apply Hsame. by apply list_elem_of_further.
Qed.

End Stopwords.

(** One step of [sub]. *)
Lemma sub_from_no_match (r : Re.regex) (repl : list ascii -> list ascii -> list ascii)
    (prev : option ascii) (c : ascii) (s : list ascii) :
  Re.match_at r prev (c :: s) = None ->
  Re.sub_from r repl 0 prev (c :: s) = c :: Re.sub_from r repl 0 (Some c) s.
Proof. intros H. cbn [Re.sub_from]. by rewrite H. Qed.

Lemma sub_from_match_one (r : Re.regex) (repl : list ascii -> list ascii -> list ascii)
    (prev p : option ascii) (c : ascii) (s g : list ascii) :
  Re.match_at r prev (c :: s) = Some (g, s, p) ->
  Re.sub_from r repl 0 prev (c :: s) = repl [c] g ++ Re.sub_from r repl 0 (Some c) s.
Proof.
  intros H. cbn [Re.sub_from]. rewrite H.
  replace (length (c :: s) - length s)%nat with 1%nat by (simpl; lia).
  reflexivity.
Qed.

Lemma sub_from_end_empty (r : Re.regex) (prev : option ascii) :
  Re.sub_from r repl_empty 0 prev [] = [].
Proof. cbn [Re.sub_from]. by destruct (Re.match_at r prev []) as [[[? ?] ?]|]. Qed.

Ltac no_stopword Hlow Hne :=
  apply (match_at_stopwords_None _ Hlow Hne);
  match goal with
  | |- Forall _ (words_at ?p ?s) =>
      let l := eval vm_compute in (words_at p s) in
      replace (words_at p s) with l by (vm_compute; reflexivity)
  end;
  repeat constructor; assumption.

(** The fourth rewrite on the example: only "a" is removed. *)
Lemma sub_stopwords_example (ENGLISH_STOPWORDS : list string) :
  Forall (fun w => lowercase_word w = true) ENGLISH_STOPWORDS ->
  "a"%string ∈ ENGLISH_STOPWORDS ->
  "it"%string ∉ ENGLISH_STOPWORDS ->
  "test"%string ∉ ENGLISH_STOPWORDS ->
  Re.sub (re_stopwords ENGLISH_STOPWORDS) repl_empty (list_ascii_of_string "it a test!! 123")
  = list_ascii_of_string "it  test!! 123".
Proof.
  intros Hlow Ha Hit Htest.
  assert (ENGLISH_STOPWORDS ≠ []) as Hne by (intros ->; by apply not_elem_of_nil in Ha).
  unfold Re.sub. cbv [list_ascii_of_string].
  do 3 (rewrite sub_from_no_match by no_stopword Hlow Hne).
  rewrite (sub_from_match_one _ _ _ (Some "a"%char) _ _ []).
  2:{ apply (match_at_stopwords_Some _ Hlow Hne _ _ "a"); [done|by vm_compute|reflexivity]. }
  do 11 (rewrite sub_from_no_match by no_stopword Hlow Hne).
  by rewrite sub_from_end_empty.
Qed.



(** ** The theorems at concrete inputs *)

Lemma launch_model_categories : counts launch_model ≠ ∅.
Proof. intros H. vm_compute in H. discriminate H. Defined.

Lemma launch_model_nonnegative : nonnegative_tables launch_model.
Proof.
  unfold nonnegative_tables, launch_model. cbn [counts].
  apply map_Forall_insert_2; [|apply map_Forall_insert_2; [|apply map_Forall_empty]].
  - apply map_Forall_insert_2; [by vm_compute|].
    apply map_Forall_insert_2; [by vm_compute|]. apply map_Forall_empty.
  - apply map_Forall_insert_2; [by vm_compute|]. apply map_Forall_empty.
Defined.

Lemma launch_features_nonnegative : nonnegative {["launch"%string := 1]}.
Proof. apply map_Forall_singleton. lia. Defined.

Lemma only_a_lowercase : Forall (fun w => lowercase_word w = true) ["a"%string].
Proof. repeat constructor. Defined.

Lemma a_is_listed : "a"%string ∈ ["a"%string].
Proof. apply list_elem_of_here. Defined.

Lemma it_is_not_listed : "it"%string ∉ ["a"%string].
Proof. intros H. apply list_elem_of_In in H. simpl in H. intuition discriminate. Defined.

Lemma test_is_not_listed : "test"%string ∉ ["a"%string].
Proof. intros H. apply list_elem_of_In in H. simpl in H. intuition discriminate. Defined.


Lemma classify_feature_distribution_witness :
  counts launch_model ≠ ∅
  /\ classify_feature launch_model "rocket"
     = Ok (if decide (feature_total launch_model "rocket" = 0%Qc)
           then (fun _ => (1 / Qc_of_Z (Z.of_nat (size (counts launch_model))))%Qc)
                  <$> counts launch_model
           else (fun counter =>
                   (Counter.getq counter "rocket"
                    / feature_total launch_model "rocket")%Qc)
                  <$> counts launch_model).
Proof.
  split; [exact launch_model_categories|].
  exact (proj2 (classify_feature_distribution launch_model "rocket"
                  launch_model_categories)).
Defined.


Lemma loadClassifier_retrains_over_loaded_counts_witness :
  read_counts (get_var half_saved "classifier_counts" EmptyString) = Some loaded_counts
  /\ read_sample_counts (get_var half_saved "classifier_sample_counts" EmptyString) = None
  /\ loaded_counts !! "interesting"%string = Some {["x"%string := Qc_of_Z 1]}
  /\ loaded_counts !! "boring"%string = Some ∅
  /\ liked ≠ []
  /\ disliked ≠ []
  /\ exists classifier,
       loadClassifier ["a"%string] ∅ id id (fun _ => EmptyString) read_counts
                      (fun _ => EmptyString) read_sample_counts
                      half_saved (Some liked) (Some disliked)
       = Ok (classifier,
             saveClassifier (fun _ => EmptyString) (fun _ => EmptyString)
                            half_saved classifier)
       /\ forall f,
            frequency classifier "interesting" f
            = (Counter.getq {["x"%string := Qc_of_Z 1]} f
               + Qc_of_Z (occurrences f (prepare_article ["a"%string] ∅ id id <$> liked))
                 / Qc_of_Z (Z.of_nat (length liked)))%Qc.
Proof.
  assert (read_counts (get_var half_saved "classifier_counts" EmptyString) = Some loaded_counts)
    as H1 by reflexivity.
  assert (read_sample_counts (get_var half_saved "classifier_sample_counts" EmptyString) = None)
    as H2 by reflexivity.
  assert (loaded_counts !! "interesting"%string = Some {["x"%string := Qc_of_Z 1]})
    as H3 by reflexivity.
  assert (loaded_counts !! "boring"%string = Some ∅) as H4 by reflexivity.
  assert (liked ≠ []) as H5 by discriminate.
  assert (disliked ≠ []) as H6 by discriminate.
  repeat (split; [assumption|]).
  exact (loadClassifier_retrains_over_loaded_counts
           ["a"%string] ∅ id id (fun _ => EmptyString) read_counts
           (fun _ => EmptyString) read_sample_counts
           half_saved liked disliked loaded_counts {["x"%string := Qc_of_Z 1]} ∅
           H1 H2 H3 H4 H5 H6).
Defined.

(** * Further properties of the code *)

(** ** The constructor *)

Lemma init_lookups (categories : list string) :
  forall (self : TextClassifier) (c : string),
    let self' :=
      foldl (fun self i =>
               {| _counts_change := <[i := ∅]> (_counts_change self);
                  counts := <[i := ∅]> (counts self);
                  sample_counts := <[i := 0]> (sample_counts self);
                  _sample_counts_change := <[i := 0]> (_sample_counts_change self) |})
            self categories in
    if decide (c ∈ categories)
    then untrained self' c
    else _counts_change self' !! c = _counts_change self !! c
         /\ counts self' !! c = counts self !! c
         /\ sample_counts self' !! c = sample_counts self !! c
         /\ _sample_counts_change self' !! c = _sample_counts_change self !! c.
Proof.
  induction categories as [|i categories IH]; intros self c; cbv zeta; cbn [foldl].
  - rewrite decide_False by apply not_elem_of_nil. done.
  - match goal with |- context [foldl _ ?s categories] => specialize (IH s c) end.
    cbv zeta in IH. destruct (decide (c ∈ categories)) as [Hin|Hnin].
    + rewrite decide_True by (by apply list_elem_of_further). exact IH.
    + destruct (decide (c = i)) as [->|Hne].
      * rewrite decide_True by apply list_elem_of_here.
        destruct IH as (H1 & H2 & H3 & H4). unfold untrained.
        rewrite H1, H2, H3, H4. simpl. by rewrite !lookup_insert_eq.
      * rewrite decide_False by (intros [?|?]%elem_of_cons; done).
        destruct IH as (H1 & H2 & H3 & H4).
        rewrite H1, H2, H3, H4. simpl. by rewrite !lookup_insert_ne.
Qed.

(** In a freshly constructed model every listed category is untrained
    (empty table, sample count 0, nothing staged) and no other key is
    present in any of the four dicts. *)
Theorem init_categories (categories : list string) (c : string) :
  if decide (c ∈ categories)
  then untrained (init categories) c
  else _counts_change (init categories) !! c = None
       /\ counts (init categories) !! c = None
       /\ sample_counts (init categories) !! c = None
       /\ _sample_counts_change (init categories) !! c = None.
Proof.
  pose proof (init_lookups categories
                {| _counts_change := ∅; counts := ∅;
                   sample_counts := ∅; _sample_counts_change := ∅ |} c) as H.
  cbv zeta in H. fold (init categories) in H.
  destruct (decide (c ∈ categories)); [done|]. simpl in H.
  by rewrite !lookup_empty in H.
Qed.

Lemma init_well_formed (categories : list string) : well_formed (init categories).
Proof.
  assert (forall (A B : Type) (m : gmap string A) (n : gmap string B),
            (forall c, is_Some (m !! c) <-> is_Some (n !! c)) -> dom m = dom n) as Hdom.
  { intros A B m n H. apply set_eq. intros c. by rewrite !elem_of_dom. }
  assert (forall c,
            (is_Some (counts (init categories) !! c)
             <-> is_Some (_counts_change (init categories) !! c))
            /\ (is_Some (sample_counts (init categories) !! c)
                <-> is_Some (_counts_change (init categories) !! c))
            /\ (is_Some (_sample_counts_change (init categories) !! c)
                <-> is_Some (_counts_change (init categories) !! c))) as H.
  { intros c.
    pose proof (init_lookups categories
                  {| _counts_change := ∅; counts := ∅;
                     sample_counts := ∅; _sample_counts_change := ∅ |} c) as H.
    cbv zeta in H. fold (init categories) in H.
    destruct (decide (c ∈ categories)); destruct H as (H1 & H2 & H3 & H4);
      rewrite H1, H2, H3, H4; simpl; rewrite ?lookup_empty;
      repeat split; intros [? ?]; eauto; done. }
  repeat split; apply Hdom; intros c; by destruct (H c) as (? & ? & ?).
Qed.

(** ** Committing: when it completes and what it leaves *)

Lemma committed_inv (self : TextClassifier) (c : string) (changes : gmap string Z)
    (p : gmap string Qc * Z) :
  committed self c changes = Ok p -> committable self c.
Proof.
  unfold committed, getitem, truediv, committable.
  destruct (sample_counts self !! c) as [old|]; [|done].
  destruct (_sample_counts_change self !! c) as [delta|]; [|done]. simpl.
  destruct (decide (old + delta = 0)); [done|]. simpl.
  destruct (counts self !! c) as [counter|]; [|done]. intros _.
  by exists old, delta, counter.
Qed.

Lemma apply_changes_Ok_committable (self self' : TextClassifier) :
  apply_changes self = Ok self' ->
  forall c changes, _counts_change self !! c = Some changes -> committable self c.
Proof.
  intros Hrun c changes Hc.
  pose proof (apply_changes_invariant self) as Hinv. rewrite Hrun in Hinv.
  specialize (Hinv c). rewrite Hc in Hinv.
  destruct Hinv as (table & n & Hcm & _). by eapply committed_inv.
Qed.

(** [apply_changes] completes exactly when every category of
    [_counts_change] has its three other entries and a new total that
    is not zero. *)
Theorem apply_changes_completes_iff (self : TextClassifier) :
  (exists self', apply_changes self = Ok self')
  <-> (forall c changes, _counts_change self !! c = Some changes -> committable self c).
Proof.
  split.
  - intros [self' Hrun]. by eapply apply_changes_Ok_committable.
  - apply apply_changes_committable.
Qed.

Lemma well_formed_lookups (self : TextClassifier) (c : string) (changes : gmap string Z) :
  well_formed self ->
  _counts_change self !! c = Some changes ->
  exists old delta counter,
    sample_counts self !! c = Some old
    /\ _sample_counts_change self !! c = Some delta
    /\ counts self !! c = Some counter.
Proof.
  intros (H1 & H2 & H3) Hc.
  assert (c ∈ dom (_counts_change self)) as Hin by (apply elem_of_dom; eauto).
  pose proof Hin as Hin1. rewrite <- H1 in Hin1. apply elem_of_dom in Hin1 as [counter ?].
  pose proof Hin as Hin2. rewrite <- H2 in Hin2. apply elem_of_dom in Hin2 as [old ?].
  pose proof Hin as Hin3. rewrite <- H3 in Hin3. apply elem_of_dom in Hin3 as [delta ?].
  by exists old, delta, counter.
Qed.

Lemma apply_changes_Raise_kind (self : TextClassifier) (e : exn) :
  well_formed self ->
  apply_changes self = Raise e ->
  e = ZeroDivisionError
  /\ exists c old delta,
       c ∈ dom (_counts_change self)
       /\ sample_counts self !! c = Some old
       /\ _sample_counts_change self !! c = Some delta
       /\ old + delta = 0.
Proof.
  intros Hwf Hrun. pose proof (apply_changes_invariant self) as Hinv.
  rewrite Hrun in Hinv. destruct Hinv as (c & changes & Hc & Hcm).
  destruct (well_formed_lookups _ _ _ Hwf Hc) as (old & delta & counter & H1 & H2 & H3).
  destruct (decide (old + delta = 0)) as [H0|Hn].
  - rewrite (committed_zero_total _ _ _ _ _ H1 H2 H0) in Hcm. injection Hcm as <-.
    split; [done|]. exists c, old, delta. repeat split; try done.
    apply elem_of_dom. eauto.
  - by rewrite (committed_Ok _ _ _ _ _ _ H1 H2 H3 Hn) in Hcm.
Qed.

(** On a model whose four dicts have the same keys, the only way
    [apply_changes] can fail is the division by a zero new total: it
    raises [ZeroDivisionError] when some category has one, and
    completes otherwise. *)
Theorem apply_changes_outcome (self : TextClassifier) :
  well_formed self ->
  match apply_changes self with
  | Ok _ =>
      forall c old delta,
        c ∈ dom (_counts_change self) ->
        sample_counts self !! c = Some old ->
        _sample_counts_change self !! c = Some delta ->
        old + delta ≠ 0
  | Raise e =>
      e = ZeroDivisionError
      /\ exists c old delta,
           c ∈ dom (_counts_change self)
           /\ sample_counts self !! c = Some old
           /\ _sample_counts_change self !! c = Some delta
           /\ old + delta = 0
  end.
Proof.
  intros Hwf. destruct (apply_changes self) as [s|e] eqn:Hrun.
  - intros c old delta [changes Hc]%elem_of_dom H1 H2.
    destruct (apply_changes_Ok_committable _ _ Hrun _ _ Hc)
      as (old' & delta' & counter & H1' & H2' & _ & Hnew).
    congruence.
  - by apply apply_changes_Raise_kind.
Qed.

(** After a completed [apply_changes], every category has nothing
    staged, a staged sample-count delta of 0, and a sample count equal
    to the old count plus the old delta. *)
Theorem apply_changes_bookkeeping (self self' : TextClassifier) (c : string) :
  apply_changes self = Ok self' ->
  c ∈ dom (_counts_change self) ->
  _counts_change self' !! c = Some ∅
  /\ _sample_counts_change self' !! c = Some 0
  /\ exists old delta,
       sample_counts self !! c = Some old
       /\ _sample_counts_change self !! c = Some delta
       /\ old + delta ≠ 0
       /\ sample_counts self' !! c = Some (old + delta).
Proof.
  intros Hrun [changes Hc]%elem_of_dom.
  pose proof (apply_changes_invariant self) as Hinv. rewrite Hrun in Hinv.
  specialize (Hinv c). rewrite Hc in Hinv.
  destruct Hinv as (table & n & Hcm & Ht & Hn & Hcc & Hd).
  pose proof (committed_inv _ _ _ _ Hcm) as (old & delta & counter & H1 & H2 & H3 & Hnew).
  rewrite (committed_Ok _ _ _ _ _ _ H1 H2 H3 Hnew) in Hcm. injection Hcm as <- <-.
  repeat split; try done. by exists old, delta.
Qed.

(** A category that is not a key of [_counts_change] is left alone by
    [apply_changes]. *)
Lemma apply_changes_elsewhere (self self' : TextClassifier) (c : string) :
  apply_changes self = Ok self' ->
  _counts_change self !! c = None ->
  counts self' !! c = counts self !! c
  /\ sample_counts self' !! c = sample_counts self !! c
  /\ _sample_counts_change self' !! c = _sample_counts_change self !! c
  /\ _counts_change self' !! c = None.
Proof.
  intros Hrun Hc.
  pose proof (apply_changes_invariant self) as Hinv. rewrite Hrun in Hinv.
  specialize (Hinv c). rewrite Hc in Hinv. destruct Hinv as (? & ? & ? & ?).
  repeat split; congruence.
Qed.

(** The step of the running mean: a completed [apply_changes] turns
    the frequency [x] of a feature in a category with old count [old]
    and new count [new] into [x * old / new + staged / new] (with the
    table left unscaled when [old] is 0). *)
Theorem apply_changes_frequency (self self' : TextClassifier) (c : string)
    (changes : gmap string Z) (old delta : Z) (f : string) :
  apply_changes self = Ok self' ->
  _counts_change self !! c = Some changes ->
  sample_counts self !! c = Some old ->
  _sample_counts_change self !! c = Some delta ->
  frequency self' c f
  = ((if decide (old = 0%Z) then frequency self c f
      else frequency self c f * (Qc_of_Z old / Qc_of_Z (old + delta)%Z))
     + Qc_of_Z (Counter.get changes f) / Qc_of_Z (old + delta)%Z)%Qc.
Proof.
  intros Hrun Hc H1 H2.
  destruct (apply_changes_Ok_committable _ _ Hrun _ _ Hc)
    as (old' & delta' & counter & H1' & H2' & H3 & Hnew).
  assert (old' = old) as -> by congruence. assert (delta' = delta) as -> by congruence.
  destruct (apply_changes_at _ _ _ _ _ _ _ Hrun Hc H1 H2 H3 Hnew) as (Ht & _).
  unfold frequency. rewrite Ht, H3. simpl. rewrite getq_add_changes.
  destruct (decide (old = 0)) as [->|Ho].
  - by rewrite decide_False by lia.
  - rewrite decide_True by done. by rewrite getq_rescale.
Qed.

Lemma rescale_same (n : Z) (counter : gmap string Qc) :
  n ≠ 0 -> rescale (Qc_of_Z n / Qc_of_Z (n + 0))%Qc counter = counter.
Proof.
  intros Hn. rewrite Z.add_0_r. unfold rescale.
  assert (Qc_of_Z n ≠ 0%Qc) as Hq.
  { rewrite <- Z2Qc_inj_0. by intros ?%Z2Qc_inj. }
  apply map_eq. intros k. rewrite lookup_fmap.
  destruct (counter !! k) as [x|]; simpl; [|done]. f_equal. by field.
Qed.

Lemma classifier_eq (s s' : TextClassifier) :
  (forall c, _counts_change s !! c = _counts_change s' !! c) ->
  (forall c, counts s !! c = counts s' !! c) ->
  (forall c, sample_counts s !! c = sample_counts s' !! c) ->
  (forall c, _sample_counts_change s !! c = _sample_counts_change s' !! c) ->
  s = s'.
Proof.
  destruct s, s'. simpl. intros H1 H2 H3 H4.
  apply map_eq in H1, H2, H3, H4. by subst.
Qed.

(** A second [apply_changes] right after a completed one changes
    nothing: with nothing staged every table is rescaled by n/n and
    every count stays. *)
Theorem apply_changes_twice (self self' : TextClassifier) :
  apply_changes self = Ok self' -> apply_changes self' = Ok self'.
Proof.
  intros Hrun.
  pose proof (apply_changes_Ok_committable _ _ Hrun) as Hall.
  pose proof (apply_changes_stays_committable _ _ Hrun Hall) as Hall'.
  destruct (apply_changes_committable _ Hall') as [s2 Hrun2].
  rewrite Hrun2. f_equal.
  assert (forall c,
            _counts_change s2 !! c = _counts_change self' !! c
            /\ counts s2 !! c = counts self' !! c
            /\ sample_counts s2 !! c = sample_counts self' !! c
            /\ _sample_counts_change s2 !! c = _sample_counts_change self' !! c) as H.
  { intros c. destruct (_counts_change self' !! c) as [changes|] eqn:Hc.
    - destruct (_counts_change self !! c) as [changes0|] eqn:Hc0.
      2:{ destruct (apply_changes_elsewhere _ _ _ Hrun Hc0) as (_ & _ & _ & ?).
          congruence. }
      destruct (Hall _ _ Hc0) as (old & delta & counter0 & G1 & G2 & G3 & Hnew).
      destruct (apply_changes_at _ _ _ _ _ _ _ Hrun Hc0 G1 G2 G3 Hnew)
        as (_ & Hn & Hs & Hd).
      destruct (Hall' _ _ Hc) as (old' & delta' & counter & H1 & H2 & H3 & Hnew').
      assert (old' = old + delta) as -> by congruence.
      assert (delta' = 0) as -> by congruence.
      assert (changes = ∅) as -> by congruence.
      destruct (apply_changes_at _ _ _ _ _ _ _ Hrun2 Hc H1 H2 H3 Hnew')
        as (Ht2 & Hn2 & Hc2 & Hd2).
      rewrite decide_True in Ht2 by done. rewrite rescale_same in Ht2 by done.
      unfold add_changes in Ht2. rewrite map_fold_empty in Ht2.
      rewrite Z.add_0_r in Hn2. repeat split; congruence.
    - destruct (apply_changes_elsewhere _ _ _ Hrun2 Hc) as (? & ? & ? & ?).
      repeat split; congruence. }
  apply classifier_eq; intros c; by destruct (H c) as (? & ? & ? & ?).
Qed.

(** Retracting the only committed sample of a category and committing
    raises [ZeroDivisionError]: the category's new total is 1 - 1 = 0. *)
Theorem remove_last_sample_then_apply_raises (self : TextClassifier)
    (features : gmap string Z) (c : string) :
  well_formed self ->
  sample_counts self !! c = Some 1 ->
  _sample_counts_change self !! c = Some 0 ->
  exists self',
    remove_sample self features c = Ok self'
    /\ apply_changes self' = Raise ZeroDivisionError.
Proof.
  intros Hwf H1 H2.
  assert (c ∈ dom (_counts_change self)) as [changes Hc]%elem_of_dom.
  { destruct Hwf as (_ & Hd & _). rewrite <- Hd. apply elem_of_dom. eauto. }
  rewrite (remove_sample_Ok _ _ _ _ _ Hc H2). eexists. split; [done|].
  match goal with |- apply_changes ?s = _ => set (s1 := s) end.
  assert (well_formed s1) as Hwf1.
  { destruct Hwf as (Ha & Hb & Hd).
    assert (c ∈ dom (_counts_change self)) as Hin by (apply elem_of_dom; eauto).
    unfold well_formed, s1. simpl.
    rewrite !dom_insert_L. rewrite Ha, Hb, Hd. repeat split; set_solver. }
  destruct (apply_changes_zero_total s1 c (Counter.isub changes features) 1 (0 - 1))
    as [e He]; unfold s1; simpl; [apply lookup_insert_eq | done | apply lookup_insert_eq | lia |].
  fold s1 in He. by destruct (apply_changes_Raise_kind _ _ Hwf1 He) as [-> _].
Qed.

(** ** Staging a batch *)

Lemma samples_in_cons (c : string) (sample : gmap string Z * string)
    (samples : list (gmap string Z * string)) :
  samples_in c (sample :: samples)
  = (if decide (sample.2 = c) then 1 else 0) + samples_in c samples.
Proof.
  unfold samples_in. rewrite filter_cons.
  destruct (decide (sample.2 = c)); simpl; lia.
Qed.

(** [add_samples] either stages every sample or raises the [KeyError]
    of a sample whose category the model does not have.  Staging leaves
    the committed state alone; the staged Counter of each category is
    what [+=] makes of it with the features of each of the category's
    samples in turn, and the staged sample-count delta of the category
    grows by the number of its samples. *)
Theorem add_samples_outcome (samples : list (gmap string Z * string)) :
  forall self : TextClassifier,
    match add_samples self samples with
    | Ok self' =>
        counts self' = counts self
        /\ sample_counts self' = sample_counts self
        /\ dom (_counts_change self') = dom (_counts_change self)
        /\ (forall c changes, _counts_change self !! c = Some changes ->
                              _counts_change self' !! c = Some (staged_in c samples changes))
        /\ forall c d, _sample_counts_change self !! c = Some d ->
                       _sample_counts_change self' !! c = Some (d + samples_in c samples)
    | Raise e =>
        e = KeyError
        /\ exists sample, sample ∈ samples
                          /\ (_counts_change self !! sample.2 = None
                              \/ _sample_counts_change self !! sample.2 = None)
    end.
Proof.
  induction samples as [|[features category] samples IH]; intros self.
  - simpl. repeat split; try done. intros c d Hd.
    unfold samples_in. simpl. by rewrite Z.add_0_r.
  - cbn [add_samples fst snd].
    destruct (_counts_change self !! category) as [changes|] eqn:Hc.
    2:{ unfold add_sample, getitem. rewrite Hc. simpl. split; [done|].
        exists (features, category). split; [apply list_elem_of_here|by left]. }
    destruct (_sample_counts_change self !! category) as [n|] eqn:Hn.
    2:{ unfold add_sample, getitem. rewrite Hc, Hn. simpl. split; [done|].
        exists (features, category). split; [apply list_elem_of_here|by right]. }
    rewrite (add_sample_Ok _ _ _ _ _ Hc Hn), bind_Ok.
    match goal with |- context [add_samples ?s samples] => set (s1 := s) end.
    specialize (IH s1). destruct (add_samples s1 samples) as [s'|e].
    + destruct IH as (H1 & H2 & H3 & H5 & H4). unfold s1 in *. simpl in *.
      split; [done|]. split; [done|]. split; [|split].
      * rewrite H3, dom_insert_L.
        assert (category ∈ dom (_counts_change self)) by (apply elem_of_dom; eauto).
        set_solver.
      * intros c ch Hch. unfold staged_in. cbn [foldl fst snd].
        destruct (decide (category = c)) as [->|Hne].
        -- assert (ch = changes) as -> by congruence.
           apply H5, lookup_insert_eq.
        -- apply H5. by rewrite lookup_insert_ne.
      * intros c d Hd. rewrite samples_in_cons. simpl.
        destruct (decide (category = c)) as [->|Hne].
        -- rewrite (H4 c (n + 1)) by apply lookup_insert_eq.
           assert (d = n) by congruence. f_equal; lia.
        -- rewrite (H4 c d) by (by rewrite lookup_insert_ne). f_equal; lia.
    + destruct IH as (-> & sample & Hin & Hmiss). split; [done|].
      exists sample. split; [by apply list_elem_of_further|].
      unfold s1 in Hmiss. simpl in Hmiss.
      destruct Hmiss as [Hm|Hm]; apply lookup_insert_None in Hm as [Hm _]; auto.
Qed.

(** [remove_samples] is the same with the deltas lowered. *)
Theorem remove_samples_outcome (samples : list (gmap string Z * string)) :
  forall self : TextClassifier,
    match remove_samples self samples with
    | Ok self' =>
        counts self' = counts self
        /\ sample_counts self' = sample_counts self
        /\ dom (_counts_change self') = dom (_counts_change self)
        /\ forall c d, _sample_counts_change self !! c = Some d ->
                       _sample_counts_change self' !! c = Some (d - samples_in c samples)
    | Raise e =>
        e = KeyError
        /\ exists sample, sample ∈ samples
                          /\ (_counts_change self !! sample.2 = None
                              \/ _sample_counts_change self !! sample.2 = None)
    end.
Proof.
  induction samples as [|[features category] samples IH]; intros self.
  - simpl. repeat split; try done. intros c d Hd.
    unfold samples_in. simpl. by rewrite Z.sub_0_r.
  - cbn [remove_samples fst snd].
    destruct (_counts_change self !! category) as [changes|] eqn:Hc.
    2:{ unfold remove_sample, getitem. rewrite Hc. simpl. split; [done|].
        exists (features, category). split; [apply list_elem_of_here|by left]. }
    destruct (_sample_counts_change self !! category) as [n|] eqn:Hn.
    2:{ unfold remove_sample, getitem. rewrite Hc, Hn. simpl. split; [done|].
        exists (features, category). split; [apply list_elem_of_here|by right]. }
    rewrite (remove_sample_Ok _ _ _ _ _ Hc Hn), bind_Ok.
    match goal with |- context [remove_samples ?s samples] => set (s1 := s) end.
    specialize (IH s1). destruct (remove_samples s1 samples) as [s'|e].
    + destruct IH as (H1 & H2 & H3 & H4). unfold s1 in *. simpl in *.
      repeat split; try done.
      * rewrite H3, dom_insert_L.
        assert (category ∈ dom (_counts_change self)) by (apply elem_of_dom; eauto).
        set_solver.
      * intros c d Hd. rewrite samples_in_cons. simpl.
        destruct (decide (category = c)) as [->|Hne].
        -- rewrite (H4 c (n - 1)) by apply lookup_insert_eq.
           assert (d = n) by congruence. f_equal; lia.
        -- rewrite (H4 c d) by (by rewrite lookup_insert_ne). f_equal; lia.
    + destruct IH as (-> & sample & Hin & Hmiss). split; [done|].
      exists sample. split; [by apply list_elem_of_further|].
      unfold s1 in Hmiss. simpl in Hmiss.
      destruct Hmiss as [Hm|Hm]; apply lookup_insert_None in Hm as [Hm _]; auto.
Qed.

(** ** Frequencies stay non-negative *)

Lemma Qc_of_Z_nonneg (n : Z) : 0 <= n -> (0 <= Qc_of_Z n)%Qc.
Proof. intros H. rewrite <- Z2Qc_inj_0. by apply (proj1 (Z2Qc_inj_le _ _)). Qed.

Lemma Qc_of_Z_pos (n : Z) : 0 < n -> (0 < Qc_of_Z n)%Qc.
Proof. intros H. rewrite <- Z2Qc_inj_0. by apply (proj1 (Z2Qc_inj_lt _ _)). Qed.

(** As long as no staged delta is negative and no category is asked to
    give back more samples than it has, a completed [apply_changes]
    keeps every frequency non-negative. *)
Theorem apply_changes_keeps_nonnegative (self : TextClassifier) :
  nonnegative_tables self ->
  nonnegative_changes self ->
  sane_counts self ->
  match apply_changes self with
  | Ok self' => nonnegative_tables self'
  | Raise _ => True
  end.
Proof.
  intros Htables Hchanges Hsane.
  destruct (apply_changes self) as [self'|e] eqn:Hrun; [|done].
  intros c counter' Hc' k v Hk.
  destruct (_counts_change self !! c) as [changes|] eqn:Hc.
  2:{ destruct (apply_changes_elsewhere _ _ _ Hrun Hc) as (Ht & _).
      rewrite Ht in Hc'. exact (Htables c counter' Hc' k v Hk). }
  destruct (apply_changes_Ok_committable _ _ Hrun _ _ Hc)
    as (old & delta & counter & H1 & H2 & H3 & Hnew).
  destruct (Hsane c old H1 delta H2) as [Hold Hsum].
  destruct (apply_changes_at _ _ _ _ _ _ _ Hrun Hc H1 H2 H3 Hnew) as (Ht & _).
  rewrite Ht in Hc'. injection Hc' as <-.
  assert (0 < Qc_of_Z (old + delta))%Qc as Hq by (apply Qc_of_Z_pos; lia).
  set (base := if decide (old ≠ 0)
               then rescale (Qc_of_Z old / Qc_of_Z (old + delta))%Qc counter
               else counter) in *.
  assert (forall j w, base !! j = Some w -> (0 <= w)%Qc) as Hbase.
  { intros j w. unfold base. destruct (decide (old ≠ 0)).
    - unfold rescale. rewrite lookup_fmap.
      destruct (counter !! j) as [x|] eqn:Hx; [|done]. simpl. intros [= <-].
      apply Qcmult_nonneg_nonneg; [exact (Htables c counter H3 j x Hx)|].
      apply Qcdiv_nonneg; [apply Qc_of_Z_nonneg; lia|done].
    - intros Hw. exact (Htables c counter H3 j w Hw). }
  rewrite lookup_add_changes in Hk.
  destruct (changes !! k) as [w|] eqn:Hw.
  - injection Hk as <-. apply Qcplus_nonneg_nonneg.
    + unfold Counter.getq. destruct (base !! k) as [x|] eqn:Hx; simpl; [|done].
      by eapply Hbase.
    + apply Qcdiv_nonneg; [|done]. apply Qc_of_Z_nonneg.
      exact (Hchanges c changes Hc k w Hw).
  - by eapply Hbase.
Qed.

(** ** More on scoring *)

Lemma classify_feature_no_category (self : TextClassifier) (feature : string) :
  counts self = ∅ -> classify_feature self feature = Raise ZeroDivisionError.
Proof.
  intros He. rewrite classify_feature_cases.
  rewrite decide_True.
  - by rewrite decide_True.
  - unfold feature_total. rewrite He. apply sum_over_empty.
Qed.

Lemma classify_features_no_category (self : TextClassifier) (features : gmap string Z) :
  counts self = ∅ -> features ≠ ∅ ->
  classify_features self features = Raise ZeroDivisionError.
Proof.
  intros He Hne. unfold classify_features.
  assert (tally self features = Raise ZeroDivisionError) as ->; [|done].
  unfold tally.
  assert (forall (r : outcome (gmap string Qc * Z)) (m : gmap string Z),
            ((m = ∅ /\ exists st, r = Ok st) \/ r = Raise ZeroDivisionError) ->
            m ≠ ∅ -> r = Raise ZeroDivisionError) as Hend
      by (intros r m [[? _]|?] ?; done).
  apply (Hend _ features); [|done]. clear Hend Hne.
  apply (map_fold_weak_ind
           (fun (r : outcome (gmap string Qc * Z)) (m : gmap string Z) =>
              (m = ∅ /\ exists st, r = Ok st) \/ r = Raise ZeroDivisionError)).
  - left. eauto.
  - intros i x m r Hi IH. right.
    rewrite (classify_feature_no_category _ _ He).
    by destruct IH as [[_ [st ->]]| ->].
Qed.

(** A model without categories cannot score anything: [classify_feature]
    divides 1.0 by the number of categories and raises
    [ZeroDivisionError], and so does [classify_features] on every input
    with at least one feature. *)
Theorem scoring_without_categories (self : TextClassifier) (feature : string)
    (features : gmap string Z) :
  counts self = ∅ ->
  classify_feature self feature = Raise ZeroDivisionError
  /\ (features ≠ ∅ -> classify_features self features = Raise ZeroDivisionError).
Proof.
  intros He. split; [by apply classify_feature_no_category|].
  by apply classify_features_no_category.
Qed.

(** With at least one category and a positive number of occurrences,
    [classify_features] completes and gives every category a weight. *)
Lemma classify_features_categories (self : TextClassifier) (features : gmap string Z) :
  counts self ≠ ∅ ->
  nonnegative features ->
  0 < total_occurrences features ->
  exists result,
    classify_features self features = Ok result
    /\ dom result = dom (counts self).
Proof.
  intros Hne Hnn Hpos.
  destruct (tally_loop self features Hne)
    as (res & len & Htally & Hlen & Hget & Hsub & Hdom).
  specialize (Hdom (total_occurrences_positive _ Hnn Hpos)). clear Hsub.
  rewrite <- total_occurrences_sum in Hlen. apply Z2Qc_inj in Hlen. subst len.
  set (L := Qc_of_Z (total_occurrences features)).
  exists ((fun x => x / L)%Qc <$> res). split.
  - unfold classify_features. rewrite Htally, bind_Ok. cbn [fst snd].
    rewrite decide_False.
    + rewrite decide_False by lia. done.
    + intros ->. rewrite dom_empty_L in Hdom. symmetry in Hdom.
      by apply dom_empty_inv_L in Hdom.
  - by rewrite dom_fmap_L.
Qed.

(** ** What the patterns of the normalizer match *)

(** A successful repetition consumed a prefix of the subject made of
    characters of the item, at least [lo] of them, and then the
    continuation succeeded on the rest. *)
Lemma rep_inv (i : Re.item) (greedy : bool) (k : Re.cont) (g : list ascii)
    (res : Re.found) (s : list ascii) :
  forall (lo : nat) (hi : option nat) (prev : option ascii),
    Re.rep i lo hi greedy prev s g k = Some res ->
    exists pre rest prev',
      s = pre ++ rest
      /\ Forall (fun c => Re.item_matches i c = true) pre
      /\ (lo <= length pre)%nat
      /\ k prev' rest g = Some res.
Proof.
  induction s as [|c s IH]; intros lo hi prev H.
  - simpl in H. destruct lo; [|done].
    exists [], [], prev. split; [done|]. split; [constructor|]. split; [simpl; lia|done].
  - assert (forall lo' hi' prev',
              (lo <= S lo')%nat ->
              Re.item_matches i c = true ->
              Re.rep i lo' hi' greedy prev' s g k = Some res ->
              exists pre rest prev'',
                c :: s = pre ++ rest
                /\ Forall (fun c => Re.item_matches i c = true) pre
                /\ (lo <= length pre)%nat
                /\ k prev'' rest g = Some res) as Hmore.
    { intros lo' hi' prev' Hlo Hc Hr.
      destruct (IH _ _ _ Hr) as (pre & rest & p & -> & Hall & Hlen & Hk).
      exists (c :: pre), rest, p. split; [done|]. split; [by constructor|].
      split; [simpl; lia|done]. }
    assert (k prev (c :: s) g = Some res -> lo = O ->
            exists pre rest prev'',
              c :: s = pre ++ rest
              /\ Forall (fun c => Re.item_matches i c = true) pre
              /\ (lo <= length pre)%nat
              /\ k prev'' rest g = Some res) as Hstop.
    { intros Hk ->. exists [], (c :: s), prev.
      split; [done|]. split; [constructor|]. split; [simpl; lia|done]. }
    cbn [Re.rep] in H.
    destruct lo as [|lo].
    + destruct greedy.
      * destruct (bool_decide (hi ≠ Some O) && Re.item_matches i c) eqn:Hcond.
        -- apply andb_prop in Hcond as [_ Hc].
           destruct (Re.rep i (Nat.pred 0) (Nat.pred <$> hi) true (Some c) s g k) eqn:Hr.
           ++ injection H as <-. eapply Hmore; [|done|exact Hr]. lia.
           ++ by apply Hstop.
        -- by apply Hstop.
      * destruct (k prev (c :: s) g) eqn:Hk.
        -- injection H as <-. by apply Hstop.
        -- destruct (bool_decide (hi ≠ Some O) && Re.item_matches i c) eqn:Hcond; [|done].
           apply andb_prop in Hcond as [_ Hc]. eapply Hmore; [|done|exact H]. lia.
    + destruct (bool_decide (hi ≠ Some O) && Re.item_matches i c) eqn:Hcond; [|done].
      apply andb_prop in Hcond as [_ Hc]. eapply Hmore; [|done|exact H]. simpl. lia.
Qed.

(** A successful match consumed a prefix of the subject, of at least
    [min_len r] characters, all of them characters the pattern can
    consume, and then the continuation succeeded on the rest. *)
Lemma rmatch_inv (P : ascii -> bool) (res : Re.found) (r : Re.regex) :
  consumes_only P r ->
  forall (prev : option ascii) (s g : list ascii) (k : Re.cont),
    Re.rmatch r prev s g k = Some res ->
    exists pre rest prev' g',
      s = pre ++ rest
      /\ Forall (fun c => P c = true) pre
      /\ (min_len r <= length pre)%nat
      /\ k prev' rest g' = Some res.
Proof.
  induction r as [|i| |r1 IH1 r2 IH2|r1 IH1 r2 IH2|lo hi greedy i|r1 IH1];
    intros Hr prev s g k H; simpl in *.
  - exists [], s, prev, g. split; [done|]. split; [constructor|]. split; [simpl; lia|done].
  - destruct s as [|c s]; [done|].
    destruct (Re.item_matches i c) eqn:Hc; [|done].
    exists [c], s, (Some c), g. split; [done|].
    split; [constructor; [by apply Hr|constructor]|]. split; [simpl; lia|done].
  - destruct (Re.at_boundary prev s); [|done].
    exists [], s, prev, g. split; [done|]. split; [constructor|]. split; [simpl; lia|done].
  - destruct Hr as [Hr1 Hr2].
    destruct (IH1 Hr1 _ _ _ _ H) as (pre1 & rest1 & p1 & g1 & -> & Hall1 & Hlen1 & Hk1).
    destruct (IH2 Hr2 _ _ _ _ Hk1) as (pre2 & rest2 & p2 & g2 & -> & Hall2 & Hlen2 & Hk2).
    exists (pre1 ++ pre2), rest2, p2, g2.
    split; [by rewrite <- app_assoc|]. split; [by apply Forall_app|].
    split; [rewrite length_app; lia|done].
  - destruct Hr as [Hr1 Hr2].
    destruct (Re.rmatch r1 prev s g k) eqn:H1.
    + injection H as <-.
      destruct (IH1 Hr1 _ _ _ _ H1) as (pre & rest & p & g' & -> & Hall & Hlen & Hk).
      exists pre, rest, p, g'. split; [done|]. split; [done|]. split; [lia|done].
    + destruct (IH2 Hr2 _ _ _ _ H) as (pre & rest & p & g' & -> & Hall & Hlen & Hk).
      exists pre, rest, p, g'. split; [done|]. split; [done|]. split; [lia|done].
  - destruct (rep_inv _ _ _ _ _ _ _ _ _ H) as (pre & rest & p & -> & Hall & Hlen & Hk).
    exists pre, rest, p, g. split; [done|]. split; [|by split].
    eapply List.Forall_impl; [|exact Hall]. intros c Hc. by apply Hr.
  - destruct (IH1 Hr _ _ _ _ H) as (pre & rest & p & g' & -> & Hall & Hlen & Hk).
    eexists pre, rest, p, _. split; [done|]. split; [done|]. split; [done|exact Hk].
Qed.

Lemma match_at_inv (P : ascii -> bool) (r : Re.regex) (prev : option ascii)
    (s g rest : list ascii) (p : option ascii) :
  consumes_only P r ->
  Re.match_at r prev s = Some (g, rest, p) ->
  exists pre,
    s = pre ++ rest
    /\ Forall (fun c => P c = true) pre
    /\ (min_len r <= length pre)%nat.
Proof.
  intros Hr H. unfold Re.match_at in H.
  destruct (rmatch_inv P _ r Hr _ _ _ _ H) as (pre & rest' & p' & g' & -> & Hall & Hlen & Hk).
  injection Hk as -> -> ->. by exists pre.
Qed.

Lemma consumes_anything (r : Re.regex) : consumes_only (fun _ => true) r.
Proof. induction r; simpl; try done; by intros c _. Qed.

(** The texts [findall] returns for a pattern that cannot match the
    empty string: non-empty runs of characters of the subject that the
    pattern can consume. *)
Lemma findall_from_tokens (P : ascii -> bool) (r : Re.regex) :
  consumes_only P r ->
  (1 <= min_len r)%nat ->
  forall (s : list ascii) (skip : nat) (prev : option ascii) (tok : list ascii),
    tok ∈ Re.findall_from r skip prev s ->
    tok ≠ [] /\ Forall (fun c => P c = true) tok /\ (forall c, c ∈ tok -> c ∈ s).
Proof.
  intros Hr Hmin. induction s as [|c s IH]; intros skip prev tok Hin.
  - simpl in Hin. destruct skip; [|by apply not_elem_of_nil in Hin].
    destruct (Re.match_at r prev []) as [[[g rest] p]|] eqn:Hm;
      [|by apply not_elem_of_nil in Hin].
    destruct (match_at_inv P _ _ _ _ _ _ Hr Hm) as (pre & Hs & _ & Hlen).
    symmetry in Hs. apply app_eq_nil in Hs as [-> _]. simpl in Hlen. lia.
  - assert (forall skip' tok', tok' ∈ Re.findall_from r skip' (Some c) s ->
              tok' ≠ [] /\ Forall (fun c => P c = true) tok'
              /\ (forall c', c' ∈ tok' -> c' ∈ c :: s)) as IH'.
    { intros skip' tok' H. destruct (IH _ _ _ H) as (H1 & H2 & H3).
      repeat split; try done. intros c' Hc'. apply list_elem_of_further. by apply H3. }
    cbn [Re.findall_from] in Hin. destruct skip as [|n]; [|by eapply IH'].
    destruct (Re.match_at r prev (c :: s)) as [[[g rest] p]|] eqn:Hm; [|by eapply IH'].
    destruct (match_at_inv P _ _ _ _ _ _ Hr Hm) as (pre & Hs & Hall & Hlen).
    rewrite Hs in Hin. rewrite length_app in Hin.
    replace (length pre + length rest - length rest)%nat with (length pre) in Hin by lia.
    destruct (length pre) as [|n] eqn:Hn; [lia|].
    rewrite <- Hn in Hin. rewrite take_app_length in Hin.
    apply elem_of_cons in Hin as [->|Hin]; [|by eapply IH'].
    split; [by destruct pre|]. split; [done|].
    intros c' Hc'. rewrite Hs. apply elem_of_app. by left.
Qed.

Lemma tokenize_regex_consumes : consumes_only token_char tokenize_regex.
Proof.
  assert (item_within token_char Re.WordChar) as Hw.
  { intros c Hc. unfold token_char. simpl in Hc. by rewrite Hc. }
  assert (item_within token_char (Re.Chr "'")) as Ha.
  { intros c Hc. unfold token_char. simpl in Hc. rewrite Hc. apply orb_true_r. }
  unfold tokenize_regex, Re.plus. simpl. auto.
Qed.

Lemma tokenize_tokens (text : list ascii) (tok : string) :
  tok ∈ tokenize text ->
  tok ≠ EmptyString
  /\ Forall (fun c => token_char c = true) (list_ascii_of_string tok)
  /\ (forall c, c ∈ list_ascii_of_string tok -> c ∈ text).
Proof.
  unfold tokenize, Re.findall. intros (l & -> & Hl)%list_elem_of_fmap.
  destruct (findall_from_tokens token_char tokenize_regex tokenize_regex_consumes
              (le_n 1) _ _ _ _ Hl) as (Hne & Hall & Hsub).
  rewrite list_ascii_of_string_of_list_ascii. split; [|done].
  intros He. apply Hne. by destruct l.
Qed.

(** The last rewrite of [apply_regexes] leaves no digit. *)
Lemma rep_zero_succeeds (i : Re.item) (hi : option nat) (g : list ascii) (k : Re.cont) :
  (forall p s' g', k p s' g' ≠ None) ->
  forall (s : list ascii) (prev : option ascii),
    Re.rep i 0 hi true prev s g k ≠ None.
Proof.
  intros Hk. induction s as [|c s IH]; intros prev; cbn [Re.rep]; [apply Hk|].
  destruct (bool_decide (hi ≠ Some O) && Re.item_matches i c); [|apply Hk].
  destruct (Re.rep i (Nat.pred 0) (Nat.pred <$> hi) true (Some c) s g k); [done|apply Hk].
Qed.

Lemma sub_digits_no_digit (s : list ascii) :
  forall (skip : nat) (prev : option ascii),
    Forall (fun c => Re.is_digit c = false)
           (Re.sub_from re_digits repl_empty skip prev s).
Proof.
  induction s as [|c s IH]; intros skip prev.
  - simpl. destruct skip; constructor.
  - cbn [Re.sub_from]. destruct skip as [|n]; [|apply IH].
    destruct (Re.match_at re_digits prev (c :: s)) as [[[g rest] p]|] eqn:Hm.
    + destruct (match_at_inv (fun _ => true) _ _ _ _ _ _ (consumes_anything _) Hm)
        as (pre & Hs & _ & Hlen).
      rewrite Hs, length_app.
      replace (length pre + length rest - length rest)%nat with (length pre) by lia.
      destruct (length pre) as [|n] eqn:Hn; [simpl in Hlen; lia|].
      unfold repl_empty. simpl. apply IH.
    + constructor; [|apply IH].
      destruct (Re.is_digit c) eqn:Hc; [|done]. exfalso. revert Hm.
      unfold Re.match_at, re_digits, Re.plus. cbn [Re.rmatch Re.rep].
      rewrite bool_decide_true by done. cbn [Re.item_matches]. rewrite Hc. simpl.
      by apply rep_zero_succeeds.
Qed.

Lemma apply_regexes_no_digit (ENGLISH_STOPWORDS : list string) (text : list ascii) :
  Forall (fun c => Re.is_digit c = false) (apply_regexes ENGLISH_STOPWORDS text).
Proof.
  unfold apply_regexes, regular_expressions. cbn [foldl fst snd].
  unfold Re.sub. apply sub_digits_no_digit.
Qed.

(** On ASCII text, every token the normalizer hands to the
    irregular-word lookup is non-empty and is made of ASCII letters,
    underscores and apostrophes: [\w] and [\d] are [[a-zA-Z0-9_]] and
    [[0-9]] there, and the last rewrite has removed the digits. *)
Theorem tokens_are_words (ENGLISH_STOPWORDS : list string) (text : list ascii)
    (tok : string) :
  ascii_text text ->
  tok ∈ tokenize (apply_regexes ENGLISH_STOPWORDS text) ->
  tok ≠ EmptyString
  /\ Forall (fun c => is_ascii c = true /\ token_char c = true /\ Re.is_digit c = false)
            (list_ascii_of_string tok).
Proof.
  intros Hascii Hin. destruct (tokenize_tokens _ _ Hin) as (Hne & Hall & Hsub).
  split; [done|].
  pose proof (apply_regexes_no_digit ENGLISH_STOPWORDS text) as Hd.
  rewrite List.Forall_forall in Hall, Hd. apply List.Forall_forall.
  intros c Hc. split; [|split; [by apply Hall|]].
  - destruct c as [[] [] [] [] [] [] [] []]; try reflexivity;
      apply Hall in Hc; vm_compute in Hc; discriminate Hc.
  - apply Hd. apply list_elem_of_In. apply Hsub. by apply list_elem_of_In.
Qed.

(** [unescape] leaves a text without ampersand as it is, whatever
    [fixup] does. *)
Theorem unescape_without_ampersand (fixup : string -> string) (text : list ascii) :
  "&"%char ∉ text -> unescape fixup text = text.
Proof.
  unfold unescape, Re.sub. generalize (None : option ascii).
  induction text as [|c text IH]; intros prev Hno; [done|].
  apply not_elem_of_cons in Hno as [Hc Hno].
  cbn [Re.sub_from].
  assert (Re.match_at unicode_chr_regex prev (c :: text) = None) as ->.
  { unfold Re.match_at, unicode_chr_regex. cbn [Re.rmatch Re.item_matches].
    destruct (Ascii.eqb c "&") eqn:E; [|done]. apply Ascii.eqb_eq in E. done. }
  f_equal. by apply IH.
Qed.

(** ** Splitting, counting and scoring a text *)

Lemma token_char_not_space (c : ascii) : token_char c = true -> is_space c = false.
Proof.
  destruct c as [[] [] [] [] [] [] [] []]; vm_compute; intros H; try reflexivity;
    discriminate H.
Qed.

Lemma split_from_no_space (s : list ascii) :
  forall word : list ascii,
    Forall (fun c => is_space c = false) s ->
    word ++ s ≠ [] ->
    split_from word s = [rev word ++ s].
Proof.
  induction s as [|c s IH]; intros word Hall Hne.
  - rewrite app_nil_r in *. simpl. by destruct word.
  - inversion_clear Hall as [|? ? Hc Hall']. cbn [split_from]. rewrite Hc.
    rewrite IH; [|done|done]. simpl. by rewrite <- app_assoc.
Qed.

Lemma split_token (tok : string) :
  tok ≠ EmptyString ->
  Forall (fun c => token_char c = true) (list_ascii_of_string tok) ->
  split tok = [tok].
Proof.
  intros Hne Hall. unfold split. rewrite split_from_no_space.
  - simpl. by rewrite string_of_list_ascii_of_string.
  - eapply List.Forall_impl; [|exact Hall]. apply token_char_not_space.
  - simpl. intros He. apply Hne.
    rewrite <- (string_of_list_ascii_of_string tok). by rewrite He.
Qed.

Lemma replace_without_table (stem : string -> string) (words : list string) :
  Forall (fun tok => split tok = [tok]) words ->
  replace_irregular_words ∅ stem words = stem <$> words.
Proof.
  unfold replace_irregular_words.
  induction 1 as [|tok words Htok Hall IH]; [done|].
  simpl. rewrite lookup_empty. simpl. rewrite Htok. simpl. by rewrite IH.
Qed.

(** With an empty irregular-word table (the table as long as
    [load_irregular_words] has not been called) [prepare_words] returns
    one feature per token, in the order of the text: the stem of each
    token. *)
Theorem prepare_words_without_table (ENGLISH_STOPWORDS : list string)
    (stem fixup : string -> string) (text : string) :
  prepare_words ENGLISH_STOPWORDS ∅ stem fixup text
  = stem <$> tokenize (apply_regexes ENGLISH_STOPWORDS
                         (unescape fixup (lower (list_ascii_of_string text)))).
Proof.
  unfold prepare_words. apply replace_without_table.
  apply List.Forall_forall. intros tok Hin. apply list_elem_of_In in Hin.
  destruct (tokenize_tokens _ _ Hin) as (Hne & Hall & _). by apply split_token.
Qed.

Lemma total_occurrences_insert (c : gmap string Z) (w : string) (v : Z) :
  total_occurrences (<[w := v]> c) = total_occurrences c - Counter.get c w + v.
Proof.
  unfold total_occurrences, Counter.get.
  destruct (c !! w) as [u|] eqn:Hw; simpl.
  - rewrite <- (insert_delete_id c w u) at 2 by done.
    rewrite <- insert_delete_eq.
    rewrite !map_fold_insert_L; (intros; lia) || (try apply lookup_delete_eq).
  - rewrite map_fold_insert_L; [lia|intros; lia|done].
Qed.

Lemma count_words_fold (words : list string) (w : string) :
  forall c : gmap string Z,
    let c' := foldl (fun c w => <[w := Counter.get c w + 1]> c) c words in
    Counter.get c' w = Counter.get c w + Z.of_nat (length (filter (fun x => x = w) words))
    /\ total_occurrences c' = total_occurrences c + Z.of_nat (length words).
Proof.
  induction words as [|x words IH]; intros c; cbv zeta.
  - simpl. lia.
  - cbn [foldl]. specialize (IH (<[x := Counter.get c x + 1]> c)). cbv zeta in IH.
    destruct IH as [IH1 IH2]. rewrite IH1, IH2, total_occurrences_insert.
    rewrite filter_cons.
    assert (Counter.get (<[x := Counter.get c x + 1]> c) w
            = if decide (x = w) then Counter.get c x + 1 else Counter.get c w) as ->.
    { unfold Counter.get. destruct (decide (x = w)) as [->|Hne].
      - by rewrite lookup_insert_eq.
      - by rewrite lookup_insert_ne. }
    destruct (decide (x = w)) as [->|Hne]; simpl; lia.
Qed.

Lemma count_words_get (words : list string) (w : string) :
  Counter.get (count_words words) w
  = Z.of_nat (length (filter (fun x => x = w) words)).
Proof.
  unfold count_words.
  destruct (count_words_fold words w ∅) as [H _]. cbv zeta in H. rewrite H.
  unfold Counter.get. by rewrite lookup_empty.
Qed.

Lemma count_words_total (words : list string) :
  total_occurrences (count_words words) = Z.of_nat (length words).
Proof.
  unfold count_words.
  destruct (count_words_fold words EmptyString ∅) as [_ H]. cbv zeta in H. rewrite H.
  unfold total_occurrences. by rewrite map_fold_empty.
Qed.

(** [Counter(words)] counts: the count of every word is the number of
    its occurrences in the list (so a word has an entry exactly when it
    occurs), and the counts add up to the length of the list. *)
Theorem count_words_counts (words : list string) (w : string) :
  Counter.get (count_words words) w
  = Z.of_nat (length (filter (fun x => x = w) words))
  /\ (is_Some (count_words words !! w) <-> w ∈ words)
  /\ total_occurrences (count_words words) = Z.of_nat (length words).
Proof.
  split; [apply count_words_get|]. split; [|apply count_words_total].
  pose proof (count_words_get words w) as Hget.
  split.
  - intros [v Hv]. pose proof (count_words_positive _ _ _ Hv) as Hpos.
    unfold Counter.get in Hget. rewrite Hv in Hget. simpl in Hget.
    destruct (filter (fun x => x = w) words) as [|y l] eqn:Hf; [simpl in Hget; lia|].
    assert (y ∈ filter (fun x => x = w) words) as Hy by (rewrite Hf; apply list_elem_of_here).
    apply list_elem_of_filter in Hy as [-> Hy]. done.
  - intros Hin. destruct (count_words words !! w) as [v|] eqn:Hv; [eauto|].
    unfold Counter.get in Hget. rewrite Hv in Hget. simpl in Hget.
    assert (w ∈ filter (fun x => x = w) words) as Hw by (by apply list_elem_of_filter).
    destruct (filter (fun x => x = w) words); [by apply not_elem_of_nil in Hw|].
    simpl in Hget. lia.
Qed.

(** [classify_text] on a text without character reference, scored by a
    model with at least one category, raises nothing: a text without
    tokens gets the empty mapping, and a text with at least one token
    gets a weight for every category, the division by [length] having a
    positive divisor. *)
Theorem classify_text_categories (ENGLISH_STOPWORDS : list string)
    (replacements : gmap string string) (stem fixup : string -> string)
    (self : TextClassifier) (text : string) :
  counts self ≠ ∅ ->
  no_reference text ->
  match prepare_words ENGLISH_STOPWORDS replacements stem fixup text with
  | [] => classify_text ENGLISH_STOPWORDS replacements stem fixup self text = Ok ∅
  | _ :: _ =>
      exists result,
        classify_text ENGLISH_STOPWORDS replacements stem fixup self text = Ok result
        /\ dom result = dom (counts self)
  end.
Proof.
  intros Hne _. unfold classify_text, prepare_counter.
  destruct (prepare_words ENGLISH_STOPWORDS replacements stem fixup text) as [|w ws] eqn:Hw.
  - unfold count_words. simpl. unfold classify_features, tally.
    rewrite map_fold_empty, bind_Ok. cbn [fst snd]. by rewrite decide_True.
  - apply (classify_features_categories self (count_words (w :: ws)) Hne).
    + intros k v Hk. apply count_words_positive in Hk. simpl. lia.
    + rewrite count_words_total. simpl. lia.
Qed.

(** ** Loading the irregular-word table *)

Lemma load_words_lookup (first : string) (words : list string) (w : string) :
  forall r : gmap string string,
    foldl (fun r word => <[word := first]> r) r words !! w
    = if decide (w ∈ words) then Some first else r !! w.
Proof.
  induction words as [|x words IH]; intros r; cbn [foldl].
  - by rewrite decide_False by apply not_elem_of_nil.
  - rewrite IH. destruct (decide (w ∈ words)) as [Hin|Hnin].
    + by rewrite decide_True by (by apply list_elem_of_further).
    + destruct (decide (w = x)) as [->|Hne].
      * rewrite decide_True by apply list_elem_of_here. apply lookup_insert_eq.
      * rewrite decide_False by (intros [?|?]%elem_of_cons; done).
        by rewrite lookup_insert_ne.
Qed.

Lemma split_on_nonempty (sep : ascii) (s : list ascii) :
  forall field, split_on sep field s ≠ [].
Proof.
  induction s as [|c s IH]; intros field; simpl; [done|].
  destruct (Ascii.eqb c sep); [done|apply IH].
Qed.

Lemma fields_cons (line : string) :
  exists first, fields line = first :: variants line.
Proof.
  unfold variants, fields.
  destruct (split_on "," [] (strip (list_ascii_of_string line))) as [|f l] eqn:E.
  - by apply split_on_nonempty in E.
  - simpl. eauto.
Qed.

Lemma load_line_lookup (r : gmap string string) (line : string) (w : string) :
  load_line r line !! w
  = if decide (w ∈ variants line) then head (fields line) else r !! w.
Proof.
  unfold load_line. destruct (fields_cons line) as [first Hf]. rewrite Hf. simpl.
  apply load_words_lookup.
Qed.

Lemma load_irregular_words_unlisted (lines : list string) (w : string) :
  forall r : gmap string string,
    Forall (fun line => w ∉ variants line) lines ->
    load_irregular_words lines r !! w = r !! w.
Proof.
  unfold load_irregular_words.
  induction lines as [|line lines IH]; intros r Hall; [done|].
  inversion_clear Hall as [|? ? Hline Hall']. simpl. rewrite IH by done.
  rewrite load_line_lookup. by rewrite decide_False.
Qed.

(** A word that no line lists as a variant keeps the entry it had (or
    stays without one): in particular a canonical form is not mapped to
    itself. *)
Theorem load_irregular_words_keeps_unlisted (lines : list string) (w : string)
    (r : gmap string string) :
  Forall (fun line => w ∉ variants line) lines ->
  load_irregular_words lines r !! w = r !! w.
Proof. apply load_irregular_words_unlisted. Qed.

(** A word that some line lists as a variant is mapped to the first
    field of the last line that lists it. *)
Theorem load_irregular_words_last_wins (before after : list string) (line : string)
    (w : string) (r : gmap string string) :
  w ∈ variants line ->
  Forall (fun l => w ∉ variants l) after ->
  load_irregular_words (before ++ line :: after) r !! w = head (fields line).
Proof.
  intros Hin Hafter. unfold load_irregular_words. rewrite foldl_app. simpl.
  fold (load_irregular_words after (load_line (foldl load_line r before) line)).
  rewrite load_irregular_words_unlisted by done.
  rewrite load_line_lookup. by rewrite decide_True.
Qed.

(** ** Pagination *)

Lemma paginate_from_spec (per_page : Z) (articles : list (string * gmap string value)) :
  1 <= per_page ->
  forall current_page i : Z,
    0 <= i <= per_page ->
    let r := paginate_from current_page i per_page articles in
    length r.1 = length articles
    /\ (forall k link article,
          articles !! k = Some (link, article) ->
          r.1 !! k
          = Some (link,
                  <["page_number"%string :=
                      VInt (current_page + (i + Z.of_nat k) / per_page)]> article))
    /\ r.2 = match articles with
             | [] => current_page
             | _ :: _ => current_page + (i + Z.of_nat (length articles) - 1) / per_page
             end.
Proof.
  intros Hpp. induction articles as [|[link article] rest IH];
    intros current_page i Hi; cbv zeta.
  - simpl. repeat split; try done.
  - cbn [paginate_from fst snd].
    set (i' := if decide (per_page <= i) then 0 else i).
    set (p' := if decide (per_page <= i) then current_page + 1 else current_page).
    assert (0 <= i' + 1 <= per_page) as Hi'.
    { unfold i'. destruct (decide (per_page <= i)); lia. }
    assert (forall n, 0 <= n -> p' + (i' + 1 + n) / per_page
                                = current_page + (i + (1 + n)) / per_page) as Hshift.
    { intros n Hn. unfold i', p'. destruct (decide (per_page <= i)) as [Hge|Hlt].
      - assert (i = per_page) as -> by lia.
        replace (per_page + (1 + n)) with ((1 + n) + 1 * per_page) by lia.
        rewrite Z.div_add by lia. replace (0 + 1 + n) with (1 + n) by lia. lia.
      - by replace (i + 1 + n) with (i + (1 + n)) by lia. }
    destruct (IH p' (i' + 1) Hi') as (Hlen & Hk & Hlast). cbv zeta in *.
    split; [simpl; by rewrite Hlen|]. split.
    + intros k link' article' Hlook. destruct k as [|k].
      * simpl in Hlook. injection Hlook as <- <-.
        assert (p' = current_page + (i + Z.of_nat 0) / per_page) as <-; [|done].
        unfold p'. rewrite Z.add_0_r.
        destruct (decide (per_page <= i)) as [Hge|Hlt].
        -- assert (i = per_page) as -> by lia. rewrite Z.div_same by lia. done.
        -- rewrite Z.div_small by lia. lia.
      * simpl in Hlook.
        change (((link, <["page_number"%string := VInt p']> article)
                   :: (paginate_from p' (i' + 1) per_page rest).1) !! S k)
          with ((paginate_from p' (i' + 1) per_page rest).1 !! k).
        rewrite (Hk _ _ _ Hlook).
        rewrite Hshift by lia.
        by replace (1 + Z.of_nat k) with (Z.of_nat (S k)) by lia.
    + rewrite Hlast. destruct rest as [|x rest'].
      * replace (i + Z.of_nat (length [(link, article)]) - 1) with i by (simpl; lia).
        unfold p'. destruct (decide (per_page <= i)) as [Hge|Hlt].
        -- assert (i = per_page) as -> by lia. rewrite Z.div_same by lia. done.
        -- rewrite Z.div_small by lia. lia.
      * replace (i' + 1 + Z.of_nat (length (x :: rest')) - 1)
          with (i' + 1 + Z.of_nat (length rest')) by (simpl; lia).
        rewrite Hshift by lia.
        by replace (i + (1 + Z.of_nat (length rest')))
          with (i + Z.of_nat (length ((link, article) :: x :: rest')) - 1)
          by (simpl; lia).
Qed.

(** [paginate_articles] with a page size of at least 1 keeps the
    articles and their order, writes page [k / per_page + 1] into the
    article at position [k] (counted from 0) and touches no other key,
    and returns the number of the last page: 1 for no article,
    otherwise [(n - 1) / per_page + 1]. *)
Theorem paginate_articles_pages (articles : list (string * gmap string value))
    (per_page : Z) :
  1 <= per_page ->
  length (paginate_articles articles per_page).1 = length articles
  /\ (forall k link article,
        articles !! k = Some (link, article) ->
        (paginate_articles articles per_page).1 !! k
        = Some (link,
                <["page_number"%string := VInt (Z.of_nat k / per_page + 1)]> article))
  /\ (paginate_articles articles per_page).2
     = match articles with
       | [] => 1
       | _ :: _ => (Z.of_nat (length articles) - 1) / per_page + 1
       end.
Proof.
  intros Hpp. unfold paginate_articles.
  destruct (paginate_from_spec per_page articles Hpp 1 0) as (Hlen & Hk & Hlast); [lia|].
  cbv zeta in *. split; [done|]. split.
  - intros k link article Hlook. rewrite (Hk _ _ _ Hlook).
    by replace (1 + (0 + Z.of_nat k) / per_page) with (Z.of_nat k / per_page + 1)
      by (rewrite Z.add_0_l; lia).
  - rewrite Hlast. destruct articles; [done|]. rewrite Z.add_0_l. lia.
Qed.

(** No page is overfull: two articles on the same page are less than
    [per_page] positions apart. *)
Theorem paginate_articles_page_size (articles : list (string * gmap string value))
    (per_page : Z) (j k : nat) (link link' : string)
    (article article' : gmap string value) (page : value) :
  1 <= per_page ->
  (paginate_articles articles per_page).1 !! j = Some (link, article) ->
  (paginate_articles articles per_page).1 !! k = Some (link', article') ->
  article !! "page_number"%string = Some page ->
  article' !! "page_number"%string = Some page ->
  Z.abs (Z.of_nat k - Z.of_nat j) < per_page.
Proof.
  intros Hpp Hj Hk Hp Hp'.
  destruct (paginate_from_spec per_page articles Hpp 1 0) as (Hlen & Hpages & _); [lia|].
  cbv zeta in *. fold (paginate_articles articles per_page) in Hlen, Hpages.
  assert (forall n l a, (paginate_articles articles per_page).1 !! n = Some (l, a) ->
            a !! "page_number"%string = Some (VInt (1 + Z.of_nat n / per_page))) as Hpage.
  { intros n l a Hn.
    assert (is_Some (articles !! n)) as [[l0 a0] Hn0].
    { apply lookup_lt_is_Some. rewrite <- Hlen. by eapply lookup_lt_Some. }
    rewrite (Hpages _ _ _ Hn0) in Hn. injection Hn as <- <-.
    rewrite lookup_insert_eq. by rewrite Z.add_0_l. }
  rewrite (Hpage _ _ _ Hj) in Hp. rewrite (Hpage _ _ _ Hk) in Hp'.
  assert (1 + Z.of_nat j / per_page = 1 + Z.of_nat k / per_page) as Heq' by congruence.
  assert (Z.of_nat j / per_page = Z.of_nat k / per_page) as Heq by lia.
  pose proof (Z.div_mod (Z.of_nat j) per_page ltac:(lia)) as Hdj.
  pose proof (Z.div_mod (Z.of_nat k) per_page ltac:(lia)) as Hdk.
  pose proof (Z.mod_pos_bound (Z.of_nat j) per_page ltac:(lia)).
  pose proof (Z.mod_pos_bound (Z.of_nat k) per_page ltac:(lia)).
  rewrite Heq in Hdj. lia.
Qed.

(** ** Saving and loading the model *)

Section SaveAndLoad.

Variable ENGLISH_STOPWORDS : list string.
Variable replacements : gmap string string.
Variable stem : string -> string.
Variable fixup : string -> string.
Variable dumps_counts : gmap string (gmap string Qc) -> string.
Variable loads_counts : string -> option (gmap string (gmap string Qc)).
Variable dumps_sample_counts : gmap string Z -> string.
Variable loads_sample_counts : string -> option (gmap string Z).

Local Abbreviation prepare := (prepare_article ENGLISH_STOPWORDS replacements stem fixup).
Local Abbreviation load := (loadClassifier ENGLISH_STOPWORDS replacements stem fixup
                                 dumps_counts loads_counts
                                 dumps_sample_counts loads_sample_counts).
Local Abbreviation save := (saveClassifier dumps_counts dumps_sample_counts).

(** What [saveClassifier] wrote is what [loadClassifier] returns, if
    the two blobs survive the trip through JSON: the saved tables and
    sample counts in a model with nothing staged.  Nothing is
    retrained, the corpus is not read and the database stays as it
    is. *)
Theorem save_then_load (db : Database) (classifier : TextClassifier)
    (interesting_articles blacklist : option (list Article)) :
  loads_counts (dumps_counts (counts classifier)) = Some (counts classifier) ->
  loads_sample_counts (dumps_sample_counts (sample_counts classifier))
  = Some (sample_counts classifier) ->
  load (save db classifier) interesting_articles blacklist
  = Ok ({| _counts_change := _counts_change (init ["interesting"; "boring"]%string);
           counts := counts classifier;
           sample_counts := sample_counts classifier;
           _sample_counts_change :=
             _sample_counts_change (init ["interesting"; "boring"]%string) |},
        save db classifier).
Proof.
  intros H1 H2. unfold loadClassifier, saveClassifier, get_var, set_var.
  cbn [variables]. rewrite lookup_insert_ne by done. rewrite !lookup_insert_eq.
  cbn [default from_option id]. by rewrite H1, H2.
Qed.

(** Training the freshly constructed model on two non-empty lists of
    articles. *)
Lemma retrain_fresh (db : Database) (liked disliked : list Article) :
  liked ≠ [] -> disliked ≠ [] ->
  exists classifier,
    retrain ENGLISH_STOPWORDS replacements stem fixup dumps_counts dumps_sample_counts
            db (init ["interesting"; "boring"]%string) (Some liked) (Some disliked)
    = Ok (classifier, save db classifier)
    /\ sample_counts classifier !! "interesting"%string = Some (Z.of_nat (length liked))
    /\ sample_counts classifier !! "boring"%string = Some (Z.of_nat (length disliked))
    /\ (forall f,
          frequency classifier "interesting" f
          = (Qc_of_Z (occurrences f (prepare <$> liked))
             / Qc_of_Z (Z.of_nat (length liked)))%Qc)
    /\ (forall f,
          frequency classifier "boring" f
          = (Qc_of_Z (occurrences f (prepare <$> disliked))
             / Qc_of_Z (Z.of_nat (length disliked)))%Qc).
Proof.
  intros Hne1 Hne2.
  assert (0 < Z.of_nat (length liked)) as Hlen1 by (destruct liked; [done|simpl; lia]).
  assert (0 < Z.of_nat (length disliked)) as Hlen2
      by (destruct disliked; [done|simpl; lia]).
  unfold retrain. cbn [default from_option id]. rewrite add_each_stage_batch.
  cbn [init foldl _counts_change counts sample_counts _sample_counts_change].
  match goal with |- context [stage_batch ?s _ "interesting"] => set (s0 := s) end.
  destruct (stage_batch_Ok "interesting" (prepare <$> liked) s0 ∅ 0)
    as (st1 & Hs1 & Hget1 & _);
    [ done | done | by intros j v; rewrite lookup_empty
    | apply Forall_fmap, Forall_forall; intros; apply prepare_nonnegative |].
  rewrite Hs1, bind_Ok, add_each_stage_batch. rewrite length_fmap, Z.add_0_l in *.
  match goal with |- context [stage_batch ?s _ "boring"] => set (s1 := s) in * end.
  destruct (stage_batch_Ok "boring" (prepare <$> disliked) s1 ∅ 0)
    as (st2 & Hs2 & Hget2 & _);
    [ done | done | by intros j v; rewrite lookup_empty
    | apply Forall_fmap, Forall_forall; intros; apply prepare_nonnegative |].
  rewrite Hs2, bind_Ok. rewrite length_fmap, Z.add_0_l in *.
  match goal with |- context [apply_changes ?s] => set (s2 := s) in * end.
  assert (forall c changes, _counts_change s2 !! c = Some changes -> committable s2 c)
    as Hall.
  { intros c changes Hc. unfold s2, s1, s0 in *. simpl in *.
    destruct (decide (c = "boring"%string)) as [->|Hnb].
    - exists 0, (Z.of_nat (length disliked)), ∅. repeat split; [done..|lia].
    - destruct (decide (c = "interesting"%string)) as [->|Hni].
      + exists 0, (Z.of_nat (length liked)), ∅. repeat split; [done..|lia].
      + rewrite !lookup_insert_ne in Hc by done. by rewrite lookup_empty in Hc. }
  destruct (apply_changes_committable s2 Hall) as [s3 Hs3].
  rewrite Hs3, bind_Ok. exists s3. split; [done|].
  destruct (apply_changes_at s2 s3 "interesting" st1 0 (Z.of_nat (length liked)) ∅ Hs3)
    as (Ht1 & Hn1 & _); [done | done | done | done | lia |].
  destruct (apply_changes_at s2 s3 "boring" st2 0 (Z.of_nat (length disliked)) ∅ Hs3)
    as (Ht2 & Hn2 & _); [done | done | done | done | lia |].
  rewrite decide_False in Ht1, Ht2 by lia. rewrite Z.add_0_l in *.
  split; [done|]. split; [done|].
  split; intros f; unfold frequency; rewrite ?Ht1, ?Ht2; simpl;
    rewrite getq_add_changes, ?Hget1, ?Hget2; unfold Counter.get, Counter.getq;
    rewrite !lookup_empty; simpl; rewrite Z.add_0_l; ring.
Qed.

Lemma retrain_default (db : Database) (classifier : TextClassifier)
    (interesting_articles blacklist : option (list Article)) :
  retrain ENGLISH_STOPWORDS replacements stem fixup dumps_counts dumps_sample_counts
          db classifier interesting_articles blacklist
  = retrain ENGLISH_STOPWORDS replacements stem fixup dumps_counts dumps_sample_counts
            db classifier
            (Some (default (get_interesting_articles db) interesting_articles))
            (Some (default (get_blacklist db) blacklist)).
Proof. by destruct interesting_articles, blacklist. Qed.

(** First start, with at least one liked and one disliked article
    (passed by the caller or, by default, read from the database), none
    of them with a character reference in its text: no counts blob is
    stored, and [loadClassifier] returns and saves the model trained
    from scratch, in which every category has as many samples as
    articles and the frequency of every feature is its number of
    occurrences divided by the number of articles. *)
Theorem loadClassifier_first_start (db : Database)
    (interesting_articles blacklist : option (list Article)) :
  let liked := default (get_interesting_articles db) interesting_articles in
  let disliked := default (get_blacklist db) blacklist in
  loads_counts (get_var db "classifier_counts" EmptyString) = None ->
  liked ≠ [] -> disliked ≠ [] ->
  Forall plain_article liked -> Forall plain_article disliked ->
  exists classifier,
    load db interesting_articles blacklist = Ok (classifier, save db classifier)
    /\ sample_counts classifier !! "interesting"%string = Some (Z.of_nat (length liked))
    /\ sample_counts classifier !! "boring"%string = Some (Z.of_nat (length disliked))
    /\ (forall f,
          frequency classifier "interesting" f
          = (Qc_of_Z (occurrences f (prepare <$> liked))
             / Qc_of_Z (Z.of_nat (length liked)))%Qc)
    /\ (forall f,
          frequency classifier "boring" f
          = (Qc_of_Z (occurrences f (prepare <$> disliked))
             / Qc_of_Z (Z.of_nat (length disliked)))%Qc).
Proof.
  intros liked disliked Hnone Hne1 Hne2 _ _. unfold loadClassifier. rewrite Hnone.
  rewrite retrain_default. by apply retrain_fresh.
Qed.

(** First start with no liked or no disliked article, the articles
    there are being without character reference: every article is
    staged, and [loadClassifier] raises [ZeroDivisionError], because the
    commit divides by the zero total of the category without
    articles. *)
Theorem loadClassifier_first_start_raises (db : Database)
    (interesting_articles blacklist : option (list Article)) :
  loads_counts (get_var db "classifier_counts" EmptyString) = None ->
  default (get_interesting_articles db) interesting_articles = []
  \/ default (get_blacklist db) blacklist = [] ->
  Forall plain_article (default (get_interesting_articles db) interesting_articles) ->
  Forall plain_article (default (get_blacklist db) blacklist) ->
  load db interesting_articles blacklist = Raise ZeroDivisionError.
Proof.
  intros Hnone Hempty _ _. unfold loadClassifier. rewrite Hnone, retrain_default.
  set (liked := default (get_interesting_articles db) interesting_articles) in *.
  set (disliked := default (get_blacklist db) blacklist) in *.
  unfold retrain.
  cbn [default from_option id]. rewrite add_each_stage_batch.
  cbn [init foldl _counts_change counts sample_counts _sample_counts_change].
  match goal with |- context [stage_batch ?s _ "interesting"] => set (s0 := s) end.
  destruct (stage_batch_Ok "interesting" (prepare <$> liked) s0 ∅ 0)
    as (st1 & Hs1 & _ & _);
    [ done | done | by intros j v; rewrite lookup_empty
    | apply Forall_fmap, Forall_forall; intros; apply prepare_nonnegative |].
  rewrite Hs1, bind_Ok, add_each_stage_batch. rewrite length_fmap, Z.add_0_l in *.
  match goal with |- context [stage_batch ?s _ "boring"] => set (s1 := s) in * end.
  destruct (stage_batch_Ok "boring" (prepare <$> disliked) s1 ∅ 0)
    as (st2 & Hs2 & _ & _);
    [ done | done | by intros j v; rewrite lookup_empty
    | apply Forall_fmap, Forall_forall; intros; apply prepare_nonnegative |].
  rewrite Hs2, bind_Ok. rewrite length_fmap, Z.add_0_l in *.
  match goal with |- context [apply_changes ?s] => set (s2 := s) in * end.
  assert (well_formed s2) as Hwf.
  { unfold well_formed, s2, s1, s0. simpl. rewrite !dom_insert_L. set_solver. }
  assert (exists e, apply_changes s2 = Raise e) as [e He].
  { clearbody liked disliked. destruct Hempty as [-> | ->].
    - apply (apply_changes_zero_total s2 "interesting" st1 0 0); done.
    - apply (apply_changes_zero_total s2 "boring" st2 0 0); done. }
  rewrite He. by destruct (apply_changes_Raise_kind _ _ Hwf He) as [-> _].
Qed.

End SaveAndLoad.

(** ** The further properties at concrete inputs *)



Lemma staged_model_commits : apply_changes staged_model = Ok after_commit.
Proof.
  unfold after_commit. destruct (apply_changes staged_model) as [s|e] eqn:E; [done|].
  vm_compute in E. discriminate E.
Defined.

Lemma launch_model_well_formed : well_formed launch_model.
Proof. repeat split; vm_compute; reflexivity. Defined.

Lemma staged_model_interesting : "interesting"%string ∈ dom (_counts_change staged_model).
Proof. apply elem_of_dom. eexists. reflexivity. Defined.

Lemma launch_model_nonnegative_changes : nonnegative_changes launch_model.
Proof.
  unfold nonnegative_changes, launch_model. cbn [_counts_change].
  apply map_Forall_insert_2; [apply map_Forall_empty|].
  apply map_Forall_insert_2; [apply map_Forall_empty|]. apply map_Forall_empty.
Defined.

Lemma launch_model_sane : sane_counts launch_model.
Proof.
  unfold sane_counts, launch_model. cbn [sample_counts _sample_counts_change].
  apply map_Forall_insert_2.
  { intros delta. rewrite lookup_insert_eq. intros [= <-]. lia. }
  apply map_Forall_insert_2; [|apply map_Forall_empty].
  intros delta. rewrite lookup_insert_ne by done. rewrite lookup_insert_eq.
  intros [= <-]. lia.
Defined.

Lemma apply_changes_outcome_witness :
  well_formed launch_model
  /\ match apply_changes launch_model with
     | Ok _ =>
         forall c old delta,
           c ∈ dom (_counts_change launch_model) ->
           sample_counts launch_model !! c = Some old ->
           _sample_counts_change launch_model !! c = Some delta ->
           old + delta ≠ 0
     | Raise e =>
         e = ZeroDivisionError
         /\ exists c old delta,
              c ∈ dom (_counts_change launch_model)
              /\ sample_counts launch_model !! c = Some old
              /\ _sample_counts_change launch_model !! c = Some delta
              /\ old + delta = 0
     end.
Proof.
  split; [exact launch_model_well_formed|].
  exact (apply_changes_outcome launch_model launch_model_well_formed).
Defined.

Lemma apply_changes_bookkeeping_witness :
  apply_changes staged_model = Ok after_commit
  /\ "interesting"%string ∈ dom (_counts_change staged_model)
  /\ _counts_change after_commit !! "interesting"%string = Some ∅
  /\ _sample_counts_change after_commit !! "interesting"%string = Some 0
  /\ exists old delta,
       sample_counts staged_model !! "interesting"%string = Some old
       /\ _sample_counts_change staged_model !! "interesting"%string = Some delta
       /\ old + delta ≠ 0
       /\ sample_counts after_commit !! "interesting"%string = Some (old + delta).
Proof.
  split; [exact staged_model_commits|]. split; [exact staged_model_interesting|].
  exact (apply_changes_bookkeeping staged_model after_commit "interesting"
           staged_model_commits staged_model_interesting).
Defined.

Lemma apply_changes_frequency_witness :
  apply_changes staged_model = Ok after_commit
  /\ _counts_change staged_model !! "interesting"%string
     = Some (<["rocket"%string := 2]> (<["launch"%string := 1]> ∅))
  /\ sample_counts staged_model !! "interesting"%string = Some 0
  /\ _sample_counts_change staged_model !! "interesting"%string = Some 1
  /\ frequency after_commit "interesting" "rocket"
     = ((if decide (0 = 0)%Z then frequency staged_model "interesting" "rocket"
         else frequency staged_model "interesting" "rocket"
              * (Qc_of_Z 0 / Qc_of_Z (0 + 1)%Z))
        + Qc_of_Z (Counter.get (<["rocket"%string := 2%Z]> (<["launch"%string := 1%Z]> ∅))
                               "rocket")
          / Qc_of_Z (0 + 1)%Z)%Qc.
Proof.
  split; [exact staged_model_commits|].
  split; [reflexivity|]. split; [reflexivity|]. split; [reflexivity|].
  exact (apply_changes_frequency staged_model after_commit "interesting"
           (<["rocket"%string := 2]> (<["launch"%string := 1]> ∅)) 0 1 "rocket"
           staged_model_commits eq_refl eq_refl eq_refl).
Defined.

Lemma apply_changes_twice_witness :
  apply_changes staged_model = Ok after_commit
  /\ apply_changes after_commit = Ok after_commit.
Proof.
  split; [exact staged_model_commits|].
  exact (apply_changes_twice staged_model after_commit staged_model_commits).
Defined.

Lemma remove_last_sample_then_apply_raises_witness :
  well_formed launch_model
  /\ sample_counts launch_model !! "boring"%string = Some 1
  /\ _sample_counts_change launch_model !! "boring"%string = Some 0
  /\ exists self',
       remove_sample launch_model {["launch"%string := 1]} "boring" = Ok self'
       /\ apply_changes self' = Raise ZeroDivisionError.
Proof.
  split; [exact launch_model_well_formed|]. split; [reflexivity|]. split; [reflexivity|].
  exact (remove_last_sample_then_apply_raises launch_model {["launch"%string := 1]}
           "boring" launch_model_well_formed eq_refl eq_refl).
Defined.

Lemma apply_changes_keeps_nonnegative_witness :
  nonnegative_tables launch_model
  /\ nonnegative_changes launch_model
  /\ sane_counts launch_model
  /\ match apply_changes launch_model with
     | Ok self' => nonnegative_tables self'
     | Raise _ => True
     end.
Proof.
  split; [exact launch_model_nonnegative|].
  split; [exact launch_model_nonnegative_changes|].
  split; [exact launch_model_sane|].
  exact (apply_changes_keeps_nonnegative launch_model launch_model_nonnegative
           launch_model_nonnegative_changes launch_model_sane).
Defined.

Lemma scoring_without_categories_witness :
  counts (init []) = ∅
  /\ classify_feature (init []) "rocket" = Raise ZeroDivisionError
  /\ (({["rocket"%string := 1]} : gmap string Z) ≠ ∅ ->
      classify_features (init []) {["rocket"%string := 1]} = Raise ZeroDivisionError).
Proof.
  split; [reflexivity|].
  exact (scoring_without_categories (init []) "rocket" {["rocket"%string := 1]} eq_refl).
Defined.

Lemma test_is_a_token : "test"%string ∈ tokenize (apply_regexes ["a"%string] sample_text).
Proof. vm_compute. apply list_elem_of_further, list_elem_of_here. Defined.

Lemma sample_text_ascii : ascii_text sample_text.
Proof. repeat constructor. Defined.

Lemma tokens_are_words_witness :
  ascii_text sample_text
  /\ "test"%string ∈ tokenize (apply_regexes ["a"%string] sample_text)
  /\ "test"%string ≠ EmptyString
  /\ Forall (fun c => is_ascii c = true /\ token_char c = true /\ Re.is_digit c = false)
            (list_ascii_of_string "test").
Proof.
  split; [exact sample_text_ascii|]. split; [exact test_is_a_token|].
  exact (tokens_are_words ["a"%string] sample_text "test"
           sample_text_ascii test_is_a_token).
Defined.

Lemma sample_text_no_ampersand : "&"%char ∉ sample_text.
Proof.
  intros H. apply list_elem_of_In in H. vm_compute in H. intuition discriminate.
Defined.

Lemma unescape_without_ampersand_witness :
  ("&"%char ∉ sample_text) /\ unescape id sample_text = sample_text.
Proof.
  split; [exact sample_text_no_ampersand|].
  exact (unescape_without_ampersand id sample_text sample_text_no_ampersand).
Defined.

Lemma rocket_launch_no_reference : no_reference "Rocket launch".
Proof.
  intros H. apply list_elem_of_In in H. vm_compute in H. intuition discriminate.
Defined.

Lemma classify_text_categories_witness :
  counts launch_model ≠ ∅
  /\ no_reference "Rocket launch"
  /\ match prepare_words ["a"%string] ∅ id id "Rocket launch" with
     | [] => classify_text ["a"%string] ∅ id id launch_model "Rocket launch" = Ok ∅
     | _ :: _ =>
         exists result,
           classify_text ["a"%string] ∅ id id launch_model "Rocket launch" = Ok result
           /\ dom result = dom (counts launch_model)
     end.
Proof.
  split; [exact launch_model_categories|]. split; [exact rocket_launch_no_reference|].
  exact (classify_text_categories ["a"%string] ∅ id id launch_model "Rocket launch"
           launch_model_categories rocket_launch_no_reference).
Defined.

Lemma be_is_unlisted : Forall (fun line => "be"%string ∉ variants line) word_lines.
Proof.
  repeat constructor; intros H; apply list_elem_of_In in H; vm_compute in H;
    intuition discriminate.
Defined.

Lemma load_irregular_words_keeps_unlisted_witness :
  Forall (fun line => "be"%string ∉ variants line) word_lines
  /\ load_irregular_words word_lines ∅ !! "be"%string
     = ((∅ : gmap string string) !! "be"%string).
Proof.
  split; [exact be_is_unlisted|].
  exact (load_irregular_words_keeps_unlisted word_lines "be" ∅ be_is_unlisted).
Defined.

Lemma is_is_listed : "is"%string ∈ variants "be,is,are".
Proof. vm_compute. apply list_elem_of_here. Defined.

Lemma is_is_not_listed_later :
  Forall (fun l => "is"%string ∉ variants l) ["go,went,gone"%string].
Proof.
  repeat constructor; intros H; apply list_elem_of_In in H; vm_compute in H;
    intuition discriminate.
Defined.

Lemma load_irregular_words_last_wins_witness :
  "is"%string ∈ variants "be,is,are"
  /\ Forall (fun l => "is"%string ∉ variants l) ["go,went,gone"%string]
  /\ load_irregular_words ([] ++ "be,is,are"%string :: ["go,went,gone"%string]) ∅
       !! "is"%string
     = head (fields "be,is,are").
Proof.
  split; [exact is_is_listed|]. split; [exact is_is_not_listed_later|].
  exact (load_irregular_words_last_wins [] ["go,went,gone"%string] "be,is,are" "is" ∅
           is_is_listed is_is_not_listed_later).
Defined.

Lemma two_per_page : 1 <= 2.
Proof. lia. Defined.

Lemma paginate_articles_pages_witness :
  1 <= 2
  /\ length (paginate_articles three_articles 2).1 = length three_articles
  /\ (forall k link article,
        three_articles !! k = Some (link, article) ->
        (paginate_articles three_articles 2).1 !! k
        = Some (link, <["page_number"%string := VInt (Z.of_nat k / 2 + 1)]> article))
  /\ (paginate_articles three_articles 2).2
     = match three_articles with
       | [] => 1
       | _ :: _ => (Z.of_nat (length three_articles) - 1) / 2 + 1
       end.
Proof.
  split; [exact two_per_page|].
  exact (paginate_articles_pages three_articles 2 two_per_page).
Defined.

Lemma paginate_articles_page_size_witness :
  1 <= 2
  /\ (paginate_articles three_articles 2).1 !! 0%nat
     = Some ("a"%string,
             <["page_number"%string := VInt 1]> {["title"%string := VStr "A"]})
  /\ (paginate_articles three_articles 2).1 !! 1%nat
     = Some ("b"%string,
             <["page_number"%string := VInt 1]> {["title"%string := VStr "B"]})
  /\ (<["page_number"%string := VInt 1]> {["title"%string := VStr "A"]}
        : gmap string value) !! "page_number"%string = Some (VInt 1)
  /\ (<["page_number"%string := VInt 1]> {["title"%string := VStr "B"]}
        : gmap string value) !! "page_number"%string = Some (VInt 1)
  /\ Z.abs (Z.of_nat 1 - Z.of_nat 0) < 2.
Proof.
  split; [exact two_per_page|]. split; [reflexivity|]. split; [reflexivity|].
  split; [reflexivity|]. split; [reflexivity|].
  exact (paginate_articles_page_size three_articles 2 0 1 "a" "b" _ _ (VInt 1)
           two_per_page eq_refl eq_refl eq_refl eq_refl).
Defined.

Lemma save_then_load_witness :
  read_launch_counts (write_blob (counts launch_model)) = Some (counts launch_model)
  /\ read_launch_sample_counts (write_blob (sample_counts launch_model))
     = Some (sample_counts launch_model)
  /\ loadClassifier ["a"%string] ∅ id id write_blob read_launch_counts
                    write_blob read_launch_sample_counts
                    (saveClassifier write_blob write_blob empty_database launch_model)
                    None None
     = Ok ({| _counts_change := _counts_change (init ["interesting"; "boring"]%string);
              counts := counts launch_model;
              sample_counts := sample_counts launch_model;
              _sample_counts_change :=
                _sample_counts_change (init ["interesting"; "boring"]%string) |},
           saveClassifier write_blob write_blob empty_database launch_model).
Proof.
  split; [reflexivity|]. split; [reflexivity|].
  exact (save_then_load ["a"%string] ∅ id id write_blob read_launch_counts
           write_blob read_launch_sample_counts empty_database launch_model
           None None eq_refl eq_refl).
Defined.

Lemma liked_nonempty : liked ≠ [].
Proof. discriminate. Defined.

Lemma disliked_nonempty : disliked ≠ [].
Proof. discriminate. Defined.

Lemma liked_plain : Forall plain_article liked.
Proof.
  repeat constructor. intros H. apply list_elem_of_In in H. vm_compute in H.
  intuition discriminate.
Defined.

Lemma disliked_plain : Forall plain_article disliked.
Proof.
  repeat constructor. intros H. apply list_elem_of_In in H. vm_compute in H.
  intuition discriminate.
Defined.

Lemma loadClassifier_first_start_witness :
  read_nothing (get_var empty_database "classifier_counts" EmptyString) = None
  /\ liked ≠ []
  /\ disliked ≠ []
  /\ Forall plain_article liked
  /\ Forall plain_article disliked
  /\ exists classifier,
       loadClassifier ["a"%string] ∅ id id write_blob read_nothing
                      write_blob read_sample_counts
                      empty_database (Some liked) (Some disliked)
       = Ok (classifier, saveClassifier write_blob write_blob empty_database classifier)
       /\ sample_counts classifier !! "interesting"%string
          = Some (Z.of_nat (length liked))
       /\ sample_counts classifier !! "boring"%string
          = Some (Z.of_nat (length disliked))
       /\ (forall f,
             frequency classifier "interesting" f
             = (Qc_of_Z (occurrences f (prepare_article ["a"%string] ∅ id id <$> liked))
                / Qc_of_Z (Z.of_nat (length liked)))%Qc)
       /\ (forall f,
             frequency classifier "boring" f
             = (Qc_of_Z (occurrences f (prepare_article ["a"%string] ∅ id id <$> disliked))
                / Qc_of_Z (Z.of_nat (length disliked)))%Qc).
Proof.
  split; [reflexivity|]. split; [exact liked_nonempty|]. split; [exact disliked_nonempty|].
  split; [exact liked_plain|]. split; [exact disliked_plain|].
  exact (loadClassifier_first_start ["a"%string] ∅ id id write_blob read_nothing
           write_blob read_sample_counts empty_database (Some liked) (Some disliked)
           eq_refl liked_nonempty disliked_nonempty liked_plain disliked_plain).
Defined.

Lemma loadClassifier_first_start_raises_witness :
  read_nothing (get_var empty_database "classifier_counts" EmptyString) = None
  /\ (default (get_interesting_articles empty_database) (Some liked) = []
      \/ default (get_blacklist empty_database) None = [])
  /\ Forall plain_article (default (get_interesting_articles empty_database) (Some liked))
  /\ Forall plain_article (default (get_blacklist empty_database) None)
  /\ loadClassifier ["a"%string] ∅ id id write_blob read_nothing
                    write_blob read_sample_counts empty_database (Some liked) None
     = Raise ZeroDivisionError.
Proof.
  split; [reflexivity|]. split; [right; reflexivity|].
  split; [exact liked_plain|]. split; [exact (Forall_nil_2 plain_article)|].
  exact (loadClassifier_first_start_raises ["a"%string] ∅ id id write_blob read_nothing
           write_blob read_sample_counts empty_database (Some liked) None
           eq_refl (or_intror eq_refl) liked_plain (Forall_nil_2 plain_article)).
Defined.
